(** * Variable-length edge expansion of the MATCH planner

    A shallow embedding of [src/planner/match/Expand.cpp]: the one-hop
    step expander, the multi-hop expansion driver, the segment collector
    and the path-length post-filter, over an explicit model of the plan
    arena (the query context's object pool). *)

From Stdlib Require Import ZArith List String Lia Bool DecimalString.
From stdpp Require Import base option list.
From Equations Require Import Equations.
Import ListNotations.

Set Warnings "-register-all".
Local Open Scope string_scope.
Local Open Scope list_scope.

(** ** Expressions *)

(** Constant payloads ([ConstantExpression] wraps a [Value]). *)
Inductive Value : Type :=
| VNull
| VBool (b : bool)
| VInt (z : Z)
| VStr (s : string).

Inductive RelKind : Type := kRelEQ | kRelNE | kRelLT | kRelLE | kRelGT | kRelGE.
Inductive LogicalKind : Type := kLogicalAnd | kLogicalOr | kLogicalXor.
Inductive UnaryKind : Type := kUnaryNot | kUnaryNegate.

(** Modelled from the spec: the expression classes are declared outside
    the sources at hand.  Following section 3 an expression is a tree;
    the classes that [Expand.cpp] builds or inspects are distinguished.
    A label-attribute reference [label.field] carries the field name as
    its right operand, and [EAttribute left field] is the attribute
    reference on [left] with that field name. *)
Inductive Expr : Type :=
| EConstant (v : Value)
| ELabel (name : string)
| ELabelAttribute (label : string) (field : string)
| EAttribute (left : Expr) (field : string)
| EVertex
| EEdge
| EInputProperty (prop : string)
| EVariable (var : string)
| EPathBuild (items : list Expr)
| EFunctionCall (name : string) (args : list Expr)
| ERelational (op : RelKind) (l r : Expr)
| ELogical (op : LogicalKind) (l r : Expr)
| EUnary (op : UnaryKind) (operand : Expr).

Module ExprKind.
Inductive t : Type :=
| kConstant | kLabel | kLabelAttribute | kAttribute | kVertex | kEdge
| kInputProperty | kVar | kPathBuild | kFunctionCall | kRelational
| kLogical | kUnary.
End ExprKind.

Definition expr_kind (e : Expr) : ExprKind.t :=
  match e with
  | EConstant _ => ExprKind.kConstant
  | ELabel _ => ExprKind.kLabel
  | ELabelAttribute _ _ => ExprKind.kLabelAttribute
  | EAttribute _ _ => ExprKind.kAttribute
  | EVertex => ExprKind.kVertex
  | EEdge => ExprKind.kEdge
  | EInputProperty _ => ExprKind.kInputProperty
  | EVariable _ => ExprKind.kVar
  | EPathBuild _ => ExprKind.kPathBuild
  | EFunctionCall _ _ => ExprKind.kFunctionCall
  | ERelational _ _ _ => ExprKind.kRelational
  | ELogical _ _ _ => ExprKind.kLogical
  | EUnary _ _ => ExprKind.kUnary
  end.

(** [ExpressionUtils::inputPropExpr] *)
Definition inputPropExpr (prop : string) : Expr := EInputProperty prop.

(** ** Pattern descriptions *)

Inductive Direction : Type := OUT_EDGE | IN_EDGE | BOTH.

(** Edge-type identifiers are signed integers; [-edgeType] addresses the
    reverse direction of the same edge type. *)
Definition EdgeType := Z.

(** Modelled from the spec: [EdgeInfo], [NodeInfo] and the hop range
    are declared outside the sources at hand.  Following section 3 an
    edge carries a direction, its edge types, an optional hop range
    [min, max] and an optional filter; a node carries an optional
    filter.  Only the members read by [Expand.cpp] are kept. *)
Record MatchStepRange : Type := mkRange { range_min : Z; range_max : Z }.

Record EdgeInfo : Type := mkEdgeInfo {
  direction : Direction;
  edgeTypes : list EdgeType;
  range : option MatchStepRange;      (* nullptr when no range is declared *)
  edge_filter : option Expr           (* [edge.filter], nullptr when absent *)
}.

Record NodeInfo : Type := mkNodeInfo {
  node_filter : option Expr           (* [node.filter] *)
}.

(** ** Storage property requests *)

Record EdgeProp : Type := mkEdgeProp {
  ep_type : EdgeType;
  ep_props : list string
}.

Record VertexProp : Type := mkVertexProp {
  vp_tag : Z;
  vp_props : list string
}.

(** The schema of one edge type, as the planner reads it. *)
Record SchemaProvider : Type := mkSchema {
  getNumFields : nat;
  getFieldName : nat -> string
}.

(** Reserved column names ([kSrc], [kType], ... are declared in the common
    headers); kept as parameters of the development. *)
Record Names : Type := mkNames {
  kSrc : string;
  kType : string;
  kRank : string;
  kDst : string;
  kVid : string;
  kPathStr : string
}.

(** What [Expand] reads through [matchCtx_]: the space, the schema
    manager, the generator of output-variable names of fresh plan nodes,
    and the tag-schema lookup used when a vertex is fetched. *)
Record MatchClauseContext : Type := mkMatchCtx {
  space_id : Z;
  getEdgeSchema : Z -> EdgeType -> SchemaProvider;
  anonVar : nat -> string;
  getAllVertexProp : Z -> option (list VertexProp)
}.


(** ** Plan nodes and the arena *)

(** [PlanNode::Kind], as far as [Expand.cpp] and [Algo.h] name it. *)
Module PNKind.
Inductive t : Type :=
| kStart | kGetNeighbors | kGetVertices | kFilter | kProject | kDedup
| kUnion | kDataJoin | kPassThrough
| kProduceSemiShortestPath | kBFSShortest | kConjunctPath
| kProduceAllPaths | kCartesianProduct.

Definition eqb (a b : t) : bool :=
  match a, b with
  | kStart, kStart | kGetNeighbors, kGetNeighbors | kGetVertices, kGetVertices
  | kFilter, kFilter | kProject, kProject | kDedup, kDedup | kUnion, kUnion
  | kDataJoin, kDataJoin | kPassThrough, kPassThrough
  | kProduceSemiShortestPath, kProduceSemiShortestPath
  | kBFSShortest, kBFSShortest | kConjunctPath, kConjunctPath
  | kProduceAllPaths, kProduceAllPaths
  | kCartesianProduct, kCartesianProduct => true
  | _, _ => false
  end.
End PNKind.

(** Modelled from the spec: [PlanNode] and its subclasses are declared
    outside the sources at hand.  Following sections 3 and 4.1 a node has
    a kind, an output variable, column names and dependency references,
    and lives in the arena of the query; it is addressed by its position
    in the arena, and a [PlanNode*] is such an address or [nullptr]. *)
Definition NodeId := nat.
Definition PlanNodePtr := option NodeId.

Record YieldColumn : Type := mkYieldColumn {
  yc_expr : Expr;
  yc_alias : option string
}.

(** Kind-specific members of a node.  The setters of [GetNeighbors] fill
    members that are empty after [make]. *)
Inductive NodeBody : Type :=
| BNone
| BGetNeighbors (space : Z) (src : option Expr)
    (vertexProps : option (list VertexProp))
    (edgeProps : option (list EdgeProp))
    (edgeDirection : option Direction)
| BGetVertices (space : Z) (initialExpr : option Expr) (inputVar : string)
    (props : list VertexProp) (filter : option Expr)
| BFilter (condition : Expr)
| BProject (columns : list YieldColumn)
| BExtractVid (initialExpr : option Expr) (inputVar : string).

Record PlanNode : Type := mkPlanNode {
  kind : PNKind.t;
  outputVar : string;
  colNames : list string;
  deps : list PlanNodePtr;
  body : NodeBody
}.

(** Modelled from the spec: [SubPlan] is declared outside the sources at
    hand.  Following section 3 it is the pair of the root and the tail
    of a fragment; both are node references, null in a fresh value. *)
Record SubPlan : Type := mkSubPlan {
  root : PlanNodePtr;
  tail : PlanNodePtr
}.

Definition emptySubPlan : SubPlan := mkSubPlan None None.

(** The state a planning call can change: the arena of plan nodes and the
    [initialExpr_] member, which [release()] empties. *)
Record PlanState : Type := mkState {
  objPool : list PlanNode;
  initialExpr_ : option Expr
}.

(** The members of [Expand] that the expansion only reads. *)
Record Expand : Type := mkExpand {
  reversely_ : bool;
  dependency_ : PlanNodePtr;
  inputVar_ : string
}.

(** ** The planning monad: state plus failure *)

Inductive Failure : Type :=
| StatusError (msg : string)     (* a non-OK [Status] handed to the caller *)
| CheckFailed (what : string).   (* a failed [DCHECK] or a null dereference *)

Inductive Outcome (A : Type) : Type :=
| Done (a : A) (st : PlanState)
| Failed (f : Failure).
Arguments Done {A} a st.
Arguments Failed {A} f.

Definition M (A : Type) : Type := PlanState -> Outcome A.

Definition ret {A} (a : A) : M A := fun st => Done a st.

Definition bind {A B} (m : M A) (k : A -> M B) : M B :=
  fun st => match m st with
            | Done a st' => k a st'
            | Failed f => Failed f
            end.

Definition fail {A} (f : Failure) : M A := fun _ => Failed f.

Declare Scope plan_scope.
Delimit Scope plan_scope with plan.
Notation "x <- c1 ;; c2" := (bind c1 (fun x => c2))
  (at level 100, c1 at next level, right associativity) : plan_scope.
Notation "c1 ;;; c2" := (bind c1 (fun _ => c2))
  (at level 100, right associativity) : plan_scope.
Local Open Scope plan_scope.

(** [n] successive runs of [body], each on the result of the one before. *)
Fixpoint iterM {S : Type} (n : nat) (body : S -> M S) (s : S) : M S :=
  match n with
  | O => ret s
  | Datatypes.S n' => s' <- body s ;; iterM n' body s'
  end.

(** [for (; startIndex < maxHop; ++startIndex) body] over a loop-carried
    value [s]; the counter is a 64-bit integer that never passes
    [maxHop], so it is modelled in [Z]. *)
Equations? forLoop {S : Type} (body : S -> M S) (maxHop startIndex : Z)
    (s : S) (st : PlanState) : Outcome S
    by wf (Z.to_nat (maxHop - startIndex)) lt :=
  forLoop body maxHop startIndex s st with Z_lt_dec startIndex maxHop := {
    | left _ with body s st := {
        | Done s' st' := forLoop body maxHop (startIndex + 1) s' st';
        | Failed f := Failed f };
    | right _ := Done s st }.
Proof. lia. Qed.

(** *** Arena primitives *)

(** Modelled from the spec: [qctx->objPool()->add(new Node(...))].
    Following section 4.1 the node is allocated into the arena and never
    reclaimed; it gets the next address and a fresh output variable, and
    its column names are set afterwards. *)
Definition allocNode (genVar : nat -> string) (k : PNKind.t)
    (ds : list PlanNodePtr) (b : NodeBody) : M NodeId :=
  fun st =>
    let id := length (objPool st) in
    Done id (mkState (objPool st ++ [mkPlanNode k (genVar id) [] ds b])
                     (initialExpr_ st)).

(** [p->member()] on a node pointer. *)
Definition getNode (p : PlanNodePtr) : M PlanNode :=
  fun st =>
    match p with
    | None => Failed (CheckFailed "null plan node")
    | Some id =>
        match objPool st !! id with
        | Some n => Done n st
        | None => Failed (CheckFailed "dangling plan node")
        end
    end.

Definition modifyNode (id : NodeId) (f : PlanNode -> PlanNode) : M unit :=
  fun st =>
    match objPool st !! id with
    | Some _ => Done tt (mkState (alter f id (objPool st)) (initialExpr_ st))
    | None => Failed (CheckFailed "dangling plan node")
    end.

Definition setColNames (id : NodeId) (cols : list string) : M unit :=
  modifyNode id (fun n => mkPlanNode (kind n) (outputVar n) cols (deps n) (body n)).

Definition setOutputVar (id : NodeId) (var : string) : M unit :=
  modifyNode id (fun n => mkPlanNode (kind n) var (colNames n) (deps n) (body n)).

Definition setBody (id : NodeId) (f : NodeBody -> NodeBody) : M unit :=
  modifyNode id (fun n => mkPlanNode (kind n) (outputVar n) (colNames n) (deps n)
                                     (f (body n))).

(** [GetNeighbors] setters. *)
Definition setSrc (gn : NodeId) (e : Expr) : M unit :=
  setBody gn (fun b => match b with
                       | BGetNeighbors sp _ vp ep d => BGetNeighbors sp (Some e) vp ep d
                       | _ => b end).
Definition setVertexProps (gn : NodeId) (vps : list VertexProp) : M unit :=
  setBody gn (fun b => match b with
                       | BGetNeighbors sp s _ ep d => BGetNeighbors sp s (Some vps) ep d
                       | _ => b end).
Definition setEdgeProps (gn : NodeId) (eps : list EdgeProp) : M unit :=
  setBody gn (fun b => match b with
                       | BGetNeighbors sp s vp _ d => BGetNeighbors sp s vp (Some eps) d
                       | _ => b end).
Definition setEdgeDirection (gn : NodeId) (dir : Direction) : M unit :=
  setBody gn (fun b => match b with
                       | BGetNeighbors sp s vp ep _ => BGetNeighbors sp s vp ep (Some dir)
                       | _ => b end).

(** [initialExpr_.release()]: hands out the pointer and leaves null. *)
Definition releaseInitialExpr : M (option Expr) :=
  fun st => Done (initialExpr_ st) (mkState (objPool st) None).

(** [DCHECK(cond)]: a violated check aborts the planning call. *)
Definition dcheck (cond : bool) (what : string) : M unit :=
  if cond then ret tt else fail (CheckFailed what).

(** ** Rewriting of pattern labels in filters *)

(** The rewriter given to the vertex-filter visitor in [expandStep]
    ([None] is the failed [DCHECK] on the expression kind). *)
Definition vertexRewriter (expr : Expr) : option Expr :=
  match expr with
  | ELabelAttribute _ field => Some (EAttribute EVertex field)
  | ELabel _ => Some EVertex
  | _ => None
  end.

(** The rewriter given to the edge-filter visitor in [expandStep]. *)
Definition edgeRewriter (expr : Expr) : option Expr :=
  match expr with
  | ELabelAttribute _ field => Some (EAttribute EEdge field)
  | _ => None
  end.

(** Modelled from the spec: [RewriteMatchLabelVisitor] is declared in
    [visitor/RewriteMatchLabelVisitor.h], which is not part of the
    sources at hand.  Following section 4.2 it walks the expression and
    replaces every label and label-attribute reference by what the
    rewriter returns for it, leaving every other node in place; it fails
    when the rewriter's check fails.  [rewriteLabels] is this walk on a
    sub-expression, which its parent can replace. *)
Fixpoint rewriteLabels (rewriter : Expr -> option Expr) (e : Expr) : option Expr :=
  let rewriteAll :=
    fix rewriteAll (es : list Expr) : option (list Expr) :=
      match es with
      | [] => Some []
      | x :: xs =>
          match rewriteLabels rewriter x, rewriteAll xs with
          | Some x', Some xs' => Some (x' :: xs')
          | _, _ => None
          end
      end in
  match e with
  | ELabel _ | ELabelAttribute _ _ => rewriter e
  | EAttribute l field =>
      match rewriteLabels rewriter l with
      | Some l' => Some (EAttribute l' field)
      | None => None
      end
  | EPathBuild items =>
      match rewriteAll items with
      | Some items' => Some (EPathBuild items')
      | None => None
      end
  | EFunctionCall name args =>
      match rewriteAll args with
      | Some args' => Some (EFunctionCall name args')
      | None => None
      end
  | ERelational op l r =>
      match rewriteLabels rewriter l, rewriteLabels rewriter r with
      | Some l', Some r' => Some (ERelational op l' r')
      | _, _ => None
      end
  | ELogical op l r =>
      match rewriteLabels rewriter l, rewriteLabels rewriter r with
      | Some l', Some r' => Some (ELogical op l' r')
      | _, _ => None
      end
  | EUnary op x =>
      match rewriteLabels rewriter x with
      | Some x' => Some (EUnary op x')
      | None => None
      end
  | EConstant _ | EVertex | EEdge | EInputProperty _ | EVariable _ => Some e
  end.

(** The list traversal used inside [rewriteLabels]. *)
Fixpoint rewriteLabelsList (rewriter : Expr -> option Expr) (es : list Expr)
  : option (list Expr) :=
  match es with
  | [] => Some []
  | x :: xs =>
      match rewriteLabels rewriter x, rewriteLabelsList rewriter xs with
      | Some x', Some xs' => Some (x' :: xs')
      | _, _ => None
      end
  end.

(** Is the expression itself a label or a label attribute? *)
Definition rootIsLabel (e : Expr) : bool :=
  match e with
  | ELabel _ | ELabelAttribute _ _ => true
  | _ => false
  end.

(** [filter->accept(&visitor)] on a clone, inside the planning monad;
    the result is the visited object as the visit leaves it.  [accept]
    returns nothing: the visitor works in place on the object it is
    called on and replaces the label references among that object's
    sub-expressions, but it has no slot in which to replace the object
    itself.  A filter that is itself a label or a label attribute
    therefore stays as it is, and the rewriter is not asked about it. *)
Definition acceptRewrite (rewriter : Expr -> option Expr) (filter : Expr) : M Expr :=
  if rootIsLabel filter then ret filter
  else match rewriteLabels rewriter filter with
       | Some e => ret e
       | None => fail (CheckFailed "unexpected expression kind in filter")
       end.

(** Does a label or label-attribute reference occur in the expression? *)
Fixpoint hasLabelRef (e : Expr) : bool :=
  match e with
  | ELabel _ | ELabelAttribute _ _ => true
  | EAttribute l _ => hasLabelRef l
  | EPathBuild items => existsb hasLabelRef items
  | EFunctionCall _ args => existsb hasLabelRef args
  | ERelational _ l r | ELogical _ l r => hasLabelRef l || hasLabelRef r
  | EUnary _ x => hasLabelRef x
  | EConstant _ | EVertex | EEdge | EInputProperty _ | EVariable _ => false
  end.

(** Does a bare label (a reference to the entity as a whole) occur? *)
Fixpoint hasBareLabel (e : Expr) : bool :=
  match e with
  | ELabel _ => true
  | ELabelAttribute _ _ => false
  | EAttribute l _ => hasBareLabel l
  | EPathBuild items => existsb hasBareLabel items
  | EFunctionCall _ args => existsb hasBareLabel args
  | ERelational _ l r | ELogical _ l r => hasBareLabel l || hasBareLabel r
  | EUnary _ x => hasBareLabel x
  | EConstant _ | EVertex | EEdge | EInputProperty _ | EVariable _ => false
  end.

(** The substitution the spec describes, written as a total function:
    label-attribute references become attribute references on [scope]
    with the same field name, bare labels become [scope] itself. *)
Fixpoint substLabels (scope : Expr) (e : Expr) : Expr :=
  match e with
  | ELabel _ => scope
  | ELabelAttribute _ field => EAttribute scope field
  | EAttribute l field => EAttribute (substLabels scope l) field
  | EPathBuild items => EPathBuild (map (substLabels scope) items)
  | EFunctionCall name args => EFunctionCall name (map (substLabels scope) args)
  | ERelational op l r => ERelational op (substLabels scope l) (substLabels scope r)
  | ELogical op l r => ELogical op (substLabels scope l) (substLabels scope r)
  | EUnary op x => EUnary op (substLabels scope x)
  | EConstant _ | EVertex | EEdge | EInputProperty _ | EVariable _ => e
  end.

(** ** Fixed expression shapes *)

Definition mergePathColumnsExpr (lcol rcol : string) : Expr :=
  EPathBuild [inputPropExpr lcol; inputPropExpr rcol].

Definition buildPathExpr : Expr := EPathBuild [EVertex; EEdge].

Definition genVertexProps : list VertexProp := [].

Section Planner.
Context (K : Names) (matchCtx_ : MatchClauseContext).

(** *** Node factories ([X::make(qctx, ...)]) *)

Definition Project_make (dep : PlanNodePtr) (columns : list YieldColumn) : M NodeId :=
  allocNode (anonVar matchCtx_) PNKind.kProject [dep] (BProject columns).

Definition Filter_make (dep : PlanNodePtr) (condition : Expr) : M NodeId :=
  allocNode (anonVar matchCtx_) PNKind.kFilter [dep] (BFilter condition).

Definition GetNeighbors_make (dep : PlanNodePtr) (space : Z) : M NodeId :=
  allocNode (anonVar matchCtx_) PNKind.kGetNeighbors [dep]
            (BGetNeighbors space None None None None).

Definition PassThroughNode_make (dep : PlanNodePtr) : M NodeId :=
  allocNode (anonVar matchCtx_) PNKind.kPassThrough [dep] BNone.

Definition Union_make (left right : PlanNodePtr) : M NodeId :=
  allocNode (anonVar matchCtx_) PNKind.kUnion [left; right] BNone.

(** *** Collaborators outside [Expand.cpp] *)

(** Modelled from the spec: [MatchSolver::extractAndDedupVidColumn] is
    not part of the sources at hand.  Following section 4.3 it extracts
    the frontier's destination-vertex-id column from [dep] (from
    [initialExpr] when one is given) and deduplicates it; the resulting
    fragment has the dedup node as root and the extraction node as
    tail. *)
Definition extractAndDedupVidColumn (initialExpr : option Expr)
    (dep : PlanNodePtr) (inputVar : string) (plan : SubPlan) : M SubPlan :=
  project <- allocNode (anonVar matchCtx_) PNKind.kProject [dep]
                       (BExtractVid initialExpr inputVar) ;;
  dedup <- allocNode (anonVar matchCtx_) PNKind.kDedup [Some project] BNone ;;
  ret (mkSubPlan (Some dedup) (Some project)).

(** Modelled from the spec: [MatchSolver::appendFetchVertexPlan] is not
    part of the sources at hand.  Following section 4.4 the zero-hop
    result is the starting vertex itself, obtained by a fetch-vertex
    node put on top of the given plan, which becomes the new root; the
    tag-schema lookup is the fallible step (section 7). *)
Definition appendFetchVertexPlan (nodeFilter : option Expr) (space : Z)
    (initialExpr : option Expr) (inputVar : string) (plan : SubPlan) : M SubPlan :=
  match getAllVertexProp matchCtx_ space with
  | None => fail (StatusError "tag schema lookup failed")
  | Some props =>
      gv <- allocNode (anonVar matchCtx_) PNKind.kGetVertices [root plan]
                      (BGetVertices space initialExpr inputVar props nodeFilter) ;;
      ret (mkSubPlan (Some gv) (tail plan))
  end.

(** Modelled from the spec: [SegmentsConnector::innerJoinSegments] is
    not part of the sources at hand.  Following section 4.5 it makes the
    inner join of the two path fragments. *)
Definition innerJoinSegments (left right : PlanNodePtr) : M NodeId :=
  allocNode (anonVar matchCtx_) PNKind.kDataJoin [left; right] BNone.

(** Modelled from the spec: [MatchSolver::filtPathHasSameEdge] is not
    part of the sources at hand.  Following section 4.5 it puts on
    [input] a filter that discards every path of [column] in which the
    same edge occurs twice. *)
Definition filtPathHasSameEdge (input : PlanNodePtr) (column : string) : M NodeId :=
  Filter_make input
    (EUnary kUnaryNot (EFunctionCall "hasSameEdgeInPath" [inputPropExpr column])).

(** *** [Expand::genEdgeProps] *)

(** [std::vector<std::string> props{kSrc, kType, kRank, kDst};
     for (i = 0; i < getNumFields(); ++i) props.emplace_back(getFieldName(i));] *)
Definition edgePropNames (edgeSchema : SchemaProvider) : list string :=
  fold_left (fun props i => props ++ [getFieldName edgeSchema i])
            (seq 0 (getNumFields edgeSchema))
            [kSrc K; kType K; kRank K; kDst K].

(** One iteration of the loop over [edge.edgeTypes]. *)
Definition genEdgeProps_step (self : Expand) (dir : Direction)
    (edgeProps : list EdgeProp) (edgeType : EdgeType) : list EdgeProp :=
  let edgeSchema := getEdgeSchema matchCtx_ (space_id matchCtx_) edgeType in
  match dir with
  | OUT_EDGE =>
      let edgeType' := if reversely_ self then (- edgeType)%Z else edgeType in
      edgeProps ++ [mkEdgeProp edgeType' (edgePropNames edgeSchema)]
  | IN_EDGE =>
      let edgeType' := if negb (reversely_ self) then (- edgeType)%Z else edgeType in
      edgeProps ++ [mkEdgeProp edgeType' (edgePropNames edgeSchema)]
  | BOTH =>
      let edgeProps' :=
        edgeProps ++ [mkEdgeProp (- edgeType)%Z (edgePropNames edgeSchema)] in
      edgeProps' ++ [mkEdgeProp edgeType (edgePropNames edgeSchema)]
  end.

Definition genEdgeProps (self : Expand) (edge : EdgeInfo) : list EdgeProp :=
  fold_left (genEdgeProps_step self (direction edge)) (edgeTypes edge) [].

(** *** [Expand::passThrough] *)

Definition passThrough (root : PlanNodePtr) : M NodeId :=
  pt <- PassThroughNode_make root ;;
  r <- getNode root ;;
  setOutputVar pt (outputVar r) ;;;
  r' <- getNode root ;;
  setColNames pt (colNames r') ;;;
  ret pt.

(** *** [Expand::expandStep] *)

(** [if (filter != nullptr) { clone, accept(&visitor), Filter::make,
    setColNames }]: the clone is visited in place and that same object
    is handed to [Filter::make], so the filter node gets the clone as the
    visit left it. *)
Definition attachFilter (rewriter : Expr -> option Expr) (filter : option Expr)
    (root : NodeId) : M NodeId :=
  match filter with
  | None => ret root
  | Some clone =>
      filter <- acceptRewrite rewriter clone ;;
      filterNode <- Filter_make (Some root) filter ;;
      r <- getNode (Some root) ;;
      setColNames filterNode (colNames r) ;;;
      ret filterNode
  end.

Definition expandStep (self : Expand) (edge : EdgeInfo) (dep : PlanNodePtr)
    (inputVar : string) (nodeFilter : option Expr) : M SubPlan :=
  let curr := mkSubPlan dep None in
  initialExpr <- releaseInitialExpr ;;
  curr <- extractAndDedupVidColumn initialExpr dep inputVar curr ;;
  gn <- GetNeighbors_make (root curr) (space_id matchCtx_) ;;
  setSrc gn (inputPropExpr (kVid K)) ;;;
  setVertexProps gn genVertexProps ;;;
  setEdgeProps gn (genEdgeProps self edge) ;;;
  setEdgeDirection gn (direction edge) ;;;
  root <- attachFilter vertexRewriter nodeFilter gn ;;
  root <- attachFilter edgeRewriter (edge_filter edge) root ;;
  let listColumns := [mkYieldColumn buildPathExpr (Some (kPathStr K))] in
  root <- Project_make (Some root) listColumns ;;
  setColNames root [kPathStr K] ;;;
  ret (mkSubPlan (Some root) (tail curr)).

(** *** [Expand::collectData] *)

(** Returns the new pass-through accumulator (the [passThrough]
    out-parameter) and the updated [plan]. *)
Definition collectData (joinLeft joinRight inUnionNode : PlanNodePtr)
    (plan : SubPlan) : M (PlanNodePtr * SubPlan) :=
  join <- innerJoinSegments joinLeft joinRight ;;
  let lpath := (kPathStr K ++ "_" ++ "0")%string in
  let rpath := (kPathStr K ++ "_" ++ "1")%string in
  setColNames join [lpath; rpath] ;;;
  let plan := mkSubPlan (root plan) (Some join) in
  let columns := [mkYieldColumn (mergePathColumnsExpr lpath rpath) None] in
  project <- Project_make (Some join) columns ;;
  setColNames project [kPathStr K] ;;;
  filter <- filtPathHasSameEdge (Some project) (kPathStr K) ;;
  pt <- PassThroughNode_make (Some filter) ;;
  f <- getNode (Some filter) ;;
  setOutputVar pt (outputVar f) ;;;
  setColNames pt [kPathStr K] ;;;
  uNode <- Union_make (Some pt) inUnionNode ;;
  setColNames uNode [kPathStr K] ;;;
  ret (Some pt, mkSubPlan (Some uNode) (tail plan)).

(** *** [Expand::filterDatasetByPathLength] *)

Definition edgeMinHop (edge : EdgeInfo) : Z :=
  match range edge with
  | None => 1
  | Some r => range_min r
  end.

Definition edgeMaxHop (edge : EdgeInfo) : Z :=
  match range edge with
  | None => 1
  | Some r => range_max r
  end.

Definition pathLengthExpr (minHop : Z) : Expr :=
  let pathExpr := inputPropExpr (kPathStr K) in
  let edgeExpr := EFunctionCall "length" [pathExpr] in
  let minHopExpr := EConstant (VInt minHop) in
  ERelational kRelGE edgeExpr minHopExpr.

Definition filterDatasetByPathLength (edge : EdgeInfo) (input : PlanNodePtr)
    (plan : SubPlan) : M SubPlan :=
  let minHop := edgeMinHop edge in
  filter <- Filter_make input (pathLengthExpr minHop) ;;
  i <- getNode input ;;
  setColNames filter (colNames i) ;;;
  ret (mkSubPlan (Some filter) (tail plan)).

(** *** [Expand::expandSteps] *)

Definition isUnionOrPassThrough (n : PlanNode) : bool :=
  PNKind.eqb (kind n) PNKind.kUnion || PNKind.eqb (kind n) PNKind.kPassThrough.

(** The body of the loop; the loop carries the [passThrough] pointer and
    the [subplan] under construction. *)
Definition expandLoopBody (self : Expand) (edge : EdgeInfo)
    (s : PlanNodePtr * SubPlan) : M (PlanNodePtr * SubPlan) :=
  let passThrough := fst s in
  let subplan := snd s in
  p <- getNode passThrough ;;
  curr <- expandStep self edge passThrough (outputVar p) None ;;
  let rNode := root subplan in
  r <- getNode rNode ;;
  dcheck (isUnionOrPassThrough r) "rNode is a union or a pass-through" ;;;
  collectData passThrough (root curr) rNode subplan.

(** The part of [expandSteps] before the loop: the start index and the
    sub-plan of the first stage. *)
Definition expandFirst (self : Expand) (node : NodeInfo) (edge : EdgeInfo)
    (plan : SubPlan) : M (Z * SubPlan) :=
  let minHop := edgeMinHop edge in
  let maxHop := edgeMaxHop edge in
  if (minHop =? 0)%Z then
    let subplan := plan in
    initialExpr <- releaseInitialExpr ;;
    subplan <- appendFetchVertexPlan (node_filter node) (space_id matchCtx_)
                                     initialExpr (inputVar_ self) subplan ;;
    subplan <- (if (maxHop >? 0)%Z
                then pt <- passThrough (root subplan) ;;
                     ret (mkSubPlan (Some pt) (tail subplan))
                else ret subplan) ;;
    ret (0%Z, subplan)
  else
    subplan <- expandStep self edge (dependency_ self) (inputVar_ self)
                          (node_filter node) ;;
    pt <- passThrough (root subplan) ;;
    ret (1%Z, mkSubPlan (Some pt) (tail subplan)).

Definition expandSteps (self : Expand) (node : NodeInfo) (edge : EdgeInfo)
    (plan : SubPlan) : M SubPlan :=
  first <- expandFirst self node edge plan ;;
  let startIndex := fst first in
  let subplan := snd first in
  let passThrough := root subplan in
  last <- forLoop (expandLoopBody self edge) (edgeMaxHop edge) startIndex
                  (passThrough, subplan) ;;
  ret (mkSubPlan (root (snd last)) (tail plan)).

(** *** [Expand::doExpand] *)

Definition doExpand (self : Expand) (node : NodeInfo) (edge : EdgeInfo)
    (plan : SubPlan) : M SubPlan :=
  plan <- expandSteps self node edge plan ;;
  filterDatasetByPathLength edge (root plan) plan.

End Planner.

(** ** Expected plan shapes

    The node lists below say what each operation adds to the arena when
    the arena holds [n0] nodes beforehand; the lemmas of the second part
    relate them to the operations above. *)

(** One node for a filter that is present, none otherwise. *)
Definition optCount {A} (o : option A) : nat :=
  match o with
  | Some _ => 1
  | None => 0
  end.

Section Shapes.
Context (K : Names) (matchCtx_ : MatchClauseContext).

Definition freshNode (id : NodeId) (k : PNKind.t) (ds : list PlanNodePtr)
    (b : NodeBody) : PlanNode :=
  mkPlanNode k (anonVar matchCtx_ id) [] ds b.

(** The column list of a property specification: the four reserved
    columns followed by every schema field of the edge type, in schema
    order. *)
Definition fullColumns (edgeType : EdgeType) : list string :=
  let edgeSchema := getEdgeSchema matchCtx_ (space_id matchCtx_) edgeType in
  [kSrc K; kType K; kRank K; kDst K]
    ++ map (getFieldName edgeSchema) (seq 0 (getNumFields edgeSchema)).

(** What one edge type contributes to the result of [genEdgeProps]. *)
Definition propsOfType (reversely : bool) (dir : Direction) (t : EdgeType)
  : list EdgeProp :=
  match dir with
  | OUT_EDGE => [mkEdgeProp (if reversely then (- t)%Z else t) (fullColumns t)]
  | IN_EDGE => [mkEdgeProp (if reversely then t else (- t)%Z) (fullColumns t)]
  | BOTH => [mkEdgeProp (- t)%Z (fullColumns t); mkEdgeProp t (fullColumns t)]
  end.

(** Extraction, dedup and neighbor fetch of one step. *)
Definition fetchNodes (self : Expand) (edge : EdgeInfo) (n0 : nat)
    (initialExpr : option Expr) (dep : PlanNodePtr) (inputVar : string)
  : list PlanNode :=
  [ freshNode n0 PNKind.kProject [dep] (BExtractVid initialExpr inputVar);
    freshNode (n0 + 1) PNKind.kDedup [Some n0] BNone;
    freshNode (n0 + 2) PNKind.kGetNeighbors [Some (n0 + 1)]
      (BGetNeighbors (space_id matchCtx_) (Some (inputPropExpr (kVid K)))
         (Some genVertexProps) (Some (genEdgeProps K matchCtx_ self edge))
         (Some (direction edge))) ].

(** A filter after the visitor went over it in place: its label
    references are substituted, unless the filter is itself a label or a
    label attribute, which stays. *)
Definition visited (scope : Expr) (f : Expr) : Expr :=
  if rootIsLabel f then f else substLabels scope f.

(** The filter node put at address [id] over node [dep], when a filter
    is given; [scope] is the vertex or the edge expression. *)
Definition filterNodes (id dep : nat) (scope : Expr) (filter : option Expr)
  : list PlanNode :=
  match filter with
  | None => []
  | Some f => [ freshNode id PNKind.kFilter [Some dep] (BFilter (visited scope f)) ]
  end.

Definition pathProjectNode (id dep : nat) : PlanNode :=
  mkPlanNode PNKind.kProject (anonVar matchCtx_ id) [kPathStr K] [Some dep]
    (BProject [mkYieldColumn buildPathExpr (Some (kPathStr K))]).

(** Everything one [expandStep] adds. *)
Definition stepNodes (self : Expand) (edge : EdgeInfo) (n0 : nat)
    (initialExpr : option Expr) (dep : PlanNodePtr) (inputVar : string)
    (nodeFilter : option Expr) : list PlanNode :=
  let nv := optCount nodeFilter in
  let ne := optCount (edge_filter edge) in
  fetchNodes self edge n0 initialExpr dep inputVar
    ++ filterNodes (n0 + 3) (n0 + 2) EVertex nodeFilter
    ++ filterNodes (n0 + 3 + nv) (n0 + 2 + nv) EEdge (edge_filter edge)
    ++ [pathProjectNode (n0 + 3 + nv + ne) (n0 + 2 + nv + ne)].

(** The projection that closes a step. *)
Definition stepProject (edge : EdgeInfo) (n0 : nat) (nodeFilter : option Expr)
  : PlanNode :=
  pathProjectNode (n0 + 3 + optCount nodeFilter + optCount (edge_filter edge))
                  (n0 + 2 + optCount nodeFilter + optCount (edge_filter edge)).

(** The address of the projection that closes a step. *)
Definition stepRoot (edge : EdgeInfo) (n0 : nat) (nodeFilter : option Expr) : nat :=
  n0 + 3 + optCount nodeFilter + optCount (edge_filter edge).

(** The pass-through that [Expand::passThrough] puts over node [r]. *)
Definition passThroughNode (r : NodeId) (rn : PlanNode) : PlanNode :=
  mkPlanNode PNKind.kPassThrough (outputVar rn) (colNames rn) [Some r] BNone.

(** Everything one [collectData] adds. *)
Definition collectNodes (n0 : nat) (joinLeft joinRight inUnionNode : PlanNodePtr)
  : list PlanNode :=
  let lpath := (kPathStr K ++ "_0")%string in
  let rpath := (kPathStr K ++ "_1")%string in
  [ mkPlanNode PNKind.kDataJoin (anonVar matchCtx_ n0) [lpath; rpath]
      [joinLeft; joinRight] BNone;
    mkPlanNode PNKind.kProject (anonVar matchCtx_ (n0 + 1)) [kPathStr K]
      [Some n0] (BProject [mkYieldColumn (mergePathColumnsExpr lpath rpath) None]);
    mkPlanNode PNKind.kFilter (anonVar matchCtx_ (n0 + 2)) [] [Some (n0 + 1)]
      (BFilter (EUnary kUnaryNot
                  (EFunctionCall "hasSameEdgeInPath" [inputPropExpr (kPathStr K)])));
    mkPlanNode PNKind.kPassThrough (anonVar matchCtx_ (n0 + 2)) [kPathStr K]
      [Some (n0 + 2)] BNone;
    mkPlanNode PNKind.kUnion (anonVar matchCtx_ (n0 + 4)) [kPathStr K]
      [Some (n0 + 3); inUnionNode] BNone ].

(** Everything one iteration of the expansion loop adds, when the
    accumulator is node [p] with output variable [pvar] and the running
    root is node [r]. *)
Definition iterationNodes (self : Expand) (edge : EdgeInfo) (n0 : nat)
    (initialExpr : option Expr) (p : NodeId) (pvar : string) (r : NodeId)
  : list PlanNode :=
  stepNodes self edge n0 initialExpr (Some p) pvar None
    ++ collectNodes (stepRoot edge n0 None + 1) (Some p)
                    (Some (stepRoot edge n0 None)) (Some r).

(** The fetch-vertex node of the zero-hop branch. *)
Definition fetchVertexNode (self : Expand) (node : NodeInfo) (n0 : nat)
    (initialExpr : option Expr) (plan : SubPlan) (props : list VertexProp)
  : PlanNode :=
  freshNode n0 PNKind.kGetVertices [root plan]
    (BGetVertices (space_id matchCtx_) initialExpr (inputVar_ self) props
                  (node_filter node)).

(** The loop of [expandSteps] can run its body from the loop-carried
    value [s]: the accumulator and the running root are nodes of the
    arena, and the running root is a union or a pass-through. *)
Definition loopReady (s : PlanNodePtr * SubPlan) (st : PlanState) : Prop :=
  exists p pn r rn,
    fst s = Some p /\ objPool st !! p = Some pn /\
    root (snd s) = Some r /\ objPool st !! r = Some rn /\
    isUnionOrPassThrough rn = true.

(** How many nodes of kind [k] a node list holds. *)
Definition countKind (k : PNKind.t) (ns : list PlanNode) : nat :=
  length (List.filter (fun n => PNKind.eqb (kind n) k) ns).

(** An edge filter the edge rewriter accepts: no bare label in it. *)
Definition edgeFilterOk (edge : EdgeInfo) : bool :=
  match edge_filter edge with
  | None => true
  | Some f => negb (hasBareLabel f)
  end.

(** An edge filter the visitor gets through: one that is itself a label
    or a label attribute (the rewriter is never asked), or one without a
    bare label among its sub-expressions. *)
Definition edgeFilterAccepted (edge : EdgeInfo) : bool :=
  match edge_filter edge with
  | None => true
  | Some f => rootIsLabel f || negb (hasBareLabel f)
  end.

(** Is a filter given that is itself a label or a label attribute? *)
Definition rootLabelFilter (filter : option Expr) : bool :=
  match filter with
  | None => false
  | Some f => rootIsLabel f
  end.

End Shapes.

(** ** What the path-length predicate requires of a row *)

(** Modelled from the spec: the evaluation of expressions at run time is
    outside the sources at hand.  Following sections 4.6 and 8 (and the
    comment of [filterDatasetByPathLength], which filters the rows whose
    number of edges is below the minimum hop), [length] of a path is the
    number of its relationships.  A path is its starting vertex and its
    steps, each an edge with the vertex it leads to; only the expression
    forms of the path-length predicate are given a value. *)
Record PathValue : Type := mkPath {
  path_start : Z;
  path_steps : list (Z * Z)
}.

Definition relationships (p : PathValue) : list Z := map fst (path_steps p).

Inductive RowValue : Type :=
| RInt (z : Z)
| RBool (b : bool)
| RPath (p : PathValue).

Fixpoint evalOnRow (row : string -> option PathValue) (e : Expr) : option RowValue :=
  match e with
  | EConstant (VInt z) => Some (RInt z)
  | EInputProperty column =>
      match row column with
      | Some p => Some (RPath p)
      | None => None
      end
  | EFunctionCall name [arg] =>
      if String.eqb name "length"
      then match evalOnRow row arg with
           | Some (RPath p) => Some (RInt (Z.of_nat (length (relationships p))))
           | _ => None
           end
      else None
  | ERelational kRelGE l r =>
      match evalOnRow row l, evalOnRow row r with
      | Some (RInt a), Some (RInt b) => Some (RBool (b <=? a)%Z)
      | _, _ => None
      end
  | _ => None
  end.

(** ** Plan shapes of a whole expansion *)

(** The same edge with another direction, respectively other edge types. *)
Definition withDirection (dir : Direction) (edge : EdgeInfo) : EdgeInfo :=
  mkEdgeInfo dir (edgeTypes edge) (range edge) (edge_filter edge).

Definition withTypes (types : list EdgeType) (edge : EdgeInfo) : EdgeInfo :=
  mkEdgeInfo (direction edge) types (range edge) (edge_filter edge).

(** The node kinds one [expandStep] adds, in allocation order. *)
Definition stepKinds (nodeFilter : option Expr) (edge : EdgeInfo) : list PNKind.t :=
  [PNKind.kProject; PNKind.kDedup; PNKind.kGetNeighbors]
    ++ replicate (optCount nodeFilter) PNKind.kFilter
    ++ replicate (optCount (edge_filter edge)) PNKind.kFilter
    ++ [PNKind.kProject].

(** The node kinds one [collectData] adds. *)
Definition collectKinds : list PNKind.t :=
  [PNKind.kDataJoin; PNKind.kProject; PNKind.kFilter; PNKind.kPassThrough;
   PNKind.kUnion].

(** The node kinds one iteration of the expansion loop adds. *)
Definition iterationKinds (edge : EdgeInfo) : list PNKind.t :=
  stepKinds None edge ++ collectKinds.

(** [startIndex] as [expandSteps] sets it, and the number of times the
    loop condition [startIndex < maxHop] holds from there. *)
Definition hopStart (edge : EdgeInfo) : Z :=
  if (edgeMinHop edge =? 0)%Z then 0%Z else 1%Z.

Definition iterations (edge : EdgeInfo) : nat :=
  Z.to_nat (edgeMaxHop edge - hopStart edge).

(** The node kinds of the stage before the loop. *)
Definition firstKinds (node : NodeInfo) (edge : EdgeInfo) : list PNKind.t :=
  if (edgeMinHop edge =? 0)%Z
  then PNKind.kGetVertices
         :: (if (edgeMaxHop edge >? 0)%Z then [PNKind.kPassThrough] else [])
  else stepKinds (node_filter node) edge ++ [PNKind.kPassThrough].

(** The node kinds of everything [doExpand] adds, in allocation order. *)
Definition planKinds (node : NodeInfo) (edge : EdgeInfo) : list PNKind.t :=
  firstKinds node edge
    ++ concat (replicate (iterations edge) (iterationKinds edge))
    ++ [PNKind.kFilter].

(** Does the expansion run [expandStep] at all? *)
Definition expandsEdge (edge : EdgeInfo) : bool :=
  negb (edgeMinHop edge =? 0)%Z || (edgeMaxHop edge >? 0)%Z.

(** The inputs on which [doExpand] goes through: the tag-schema lookup
    of the zero-hop branch answers, and the visitor gets through the
    edge filter if a step is expanded at all. *)
Definition doExpandOk (matchCtx_ : MatchClauseContext) (edge : EdgeInfo) : bool :=
  (if (edgeMinHop edge =? 0)%Z
   then match getAllVertexProp matchCtx_ (space_id matchCtx_) with
        | Some _ => true
        | None => false
        end
   else true)
  && (edgeFilterAccepted edge || negb (expandsEdge edge)).

(** The expressions a node evaluates at run time: a filter's condition,
    a projection's columns, the source of a neighbor fetch. *)
Definition nodeExprs (n : PlanNode) : list Expr :=
  match body n with
  | BFilter c => [c]
  | BProject columns => map yc_expr columns
  | BGetNeighbors _ (Some src) _ _ _ => [src]
  | _ => []
  end.

Definition labelFreeNode (n : PlanNode) : Prop :=
  Forall (fun e => hasLabelRef e = false) (nodeExprs n).

(** How often kind [k] occurs in a list of kinds. *)
Definition countIn (k : PNKind.t) (ks : list PNKind.t) : nat :=
  length (List.filter (fun x => PNKind.eqb x k) ks).

(** ** Induction over expressions *)

Section ExprInduction.
Variable P : Expr -> Prop.
Hypothesis HConstant : forall v, P (EConstant v).
Hypothesis HLabel : forall name, P (ELabel name).
Hypothesis HLabelAttribute : forall label field, P (ELabelAttribute label field).
Hypothesis HAttribute : forall l field, P l -> P (EAttribute l field).
Hypothesis HVertex : P EVertex.
Hypothesis HEdge : P EEdge.
Hypothesis HInputProperty : forall prop, P (EInputProperty prop).
Hypothesis HVariable : forall var, P (EVariable var).
Hypothesis HPathBuild : forall items, Forall P items -> P (EPathBuild items).
Hypothesis HFunctionCall : forall name args, Forall P args -> P (EFunctionCall name args).
Hypothesis HRelational : forall op l r, P l -> P r -> P (ERelational op l r).
Hypothesis HLogical : forall op l r, P l -> P r -> P (ELogical op l r).
Hypothesis HUnary : forall op x, P x -> P (EUnary op x).

Fixpoint Expr_nested_ind (e : Expr) : P e :=
  let all :=
    fix all (es : list Expr) : Forall P es :=
      match es with
      | [] => List.Forall_nil P
      | x :: xs => @List.Forall_cons _ P x xs (Expr_nested_ind x) (all xs)
      end in
  match e with
  | EConstant v => HConstant v
  | ELabel name => HLabel name
  | ELabelAttribute label field => HLabelAttribute label field
  | EAttribute l field => HAttribute l field (Expr_nested_ind l)
  | EVertex => HVertex
  | EEdge => HEdge
  | EInputProperty prop => HInputProperty prop
  | EVariable var => HVariable var
  | EPathBuild items => HPathBuild items (all items)
  | EFunctionCall name args => HFunctionCall name args (all args)
  | ERelational op l r => HRelational op l r (Expr_nested_ind l) (Expr_nested_ind r)
  | ELogical op l r => HLogical op l r (Expr_nested_ind l) (Expr_nested_ind r)
  | EUnary op x => HUnary op x (Expr_nested_ind x)
  end.
End ExprInduction.

(** ** A small catalog used to run the planner on concrete patterns *)

Module Sample.

Definition names : Names := mkNames "_src" "_type" "_rank" "_dst" "_vid" "path".

Definition knows : SchemaProvider :=
  mkSchema 2 (fun i => match i with O => "since" | _ => "weight" end).

Definition ctx : MatchClauseContext :=
  mkMatchCtx 1 (fun _ _ => knows)
    (fun id => ("__var_" ++ NilEmpty.string_of_uint (Nat.to_uint id))%string)
    (fun _ => Some []).

Definition forward : Expand := mkExpand false None "__start".
Definition backward : Expand := mkExpand true None "__start".

Definition start : PlanState := mkState [] (Some (EVariable "vid")).

Definition anyNode : NodeInfo := mkNodeInfo None.
Definition adults : NodeInfo :=
  mkNodeInfo (Some (ERelational kRelGE (ELabelAttribute "v" "age")
                                       (EConstant (VInt 18)))).

(** A node whose filter is a single boolean property, [WHERE v.flag]. *)
Definition flagged : NodeInfo := mkNodeInfo (Some (ELabelAttribute "v" "flag")).

Definition recent : Expr :=
  ERelational kRelGT (ELabelAttribute "e" "since") (EConstant (VInt 2000)).

Definition outKnows : EdgeInfo := mkEdgeInfo OUT_EDGE [5%Z; 7%Z] None None.
Definition inKnows : EdgeInfo := mkEdgeInfo IN_EDGE [5%Z; 7%Z] None None.
Definition bothKnows : EdgeInfo := mkEdgeInfo BOTH [5%Z] None None.
Definition oneToThree : EdgeInfo :=
  mkEdgeInfo OUT_EDGE [5%Z] (Some (mkRange 1 3)) (Some recent).
Definition zeroToTwo : EdgeInfo :=
  mkEdgeInfo OUT_EDGE [5%Z] (Some (mkRange 0 2)) None.
Definition zeroOnly : EdgeInfo :=
  mkEdgeInfo OUT_EDGE [5%Z] (Some (mkRange 0 0)) None.

(** An edge whose filter mentions the edge as a whole, and a catalog
    without tag schemas. *)
Definition wholeEdge : EdgeInfo :=
  mkEdgeInfo OUT_EDGE [5%Z] (Some (mkRange 1 2))
    (Some (ERelational kRelNE (ELabel "e") (EConstant VNull))).


End Sample.

(** * Properties *)

(** ** Running the arena primitives *)

Lemma bind_Done {A B} (m : M A) (k : A -> M B) st a st' :
  m st = Done a st' -> bind m k st = k a st'.
Proof. intros H. unfold bind. now rewrite H. Qed.

Lemma bind_Failed {A B} (m : M A) (k : A -> M B) st f :
  m st = Failed f -> bind m k st = Failed f.
Proof. intros H. unfold bind. now rewrite H. Qed.

Lemma bind_assoc_run {A B C} (m : M A) (f : A -> M B) (k : B -> M C) st :
  bind (bind m f) k st = bind m (fun x => bind (f x) k) st.
Proof. unfold bind. now destruct (m st). Qed.

Lemma bind_ret_run {A B} (a : A) (k : A -> M B) st :
  bind (ret a) k st = k a st.
Proof. reflexivity. Qed.

Lemma edgeFilterOk_accepted (edge : EdgeInfo) :
  edgeFilterOk edge = true -> edgeFilterAccepted edge = true.
Proof.
  unfold edgeFilterOk, edgeFilterAccepted. destruct (edge_filter edge); [|reflexivity].
  intros ->. apply orb_true_r.
Qed.

Lemma allocNode_app g k ds b (base news : list PlanNode) ie :
  allocNode g k ds b (mkState (base ++ news) ie)
  = Done (length base + length news)
         (mkState (base ++ (news ++ [mkPlanNode k (g (length base + length news)) [] ds b])) ie).
Proof.
  unfold allocNode. cbn [objPool initialExpr_].
  rewrite length_app, <- app_assoc. reflexivity.
Qed.

Lemma pool_lookup_new (base news : list PlanNode) k :
  (base ++ news) !! (length base + k) = news !! k.
Proof. now rewrite lookup_app_r, Nat.add_comm, Nat.add_sub by lia. Qed.

Lemma pool_alter_new (f : PlanNode -> PlanNode) (base news : list PlanNode) k :
  alter f (length base + k) (base ++ news) = base ++ alter f k news.
Proof. apply alter_app_r. Qed.

Lemma modifyNode_app f (base news : list PlanNode) ie k n :
  news !! k = Some n ->
  modifyNode (length base + k) f (mkState (base ++ news) ie)
  = Done tt (mkState (base ++ alter f k news) ie).
Proof.
  intros H. unfold modifyNode. cbn [objPool initialExpr_].
  now rewrite pool_lookup_new, H, pool_alter_new.
Qed.

Lemma getNode_new (base news : list PlanNode) ie k n :
  news !! k = Some n ->
  getNode (Some (length base + k)) (mkState (base ++ news) ie)
  = Done n (mkState (base ++ news) ie).
Proof.
  intros H. unfold getNode. cbn [objPool]. now rewrite pool_lookup_new, H.
Qed.

Lemma getNode_old (base news : list PlanNode) ie p n :
  base !! p = Some n ->
  getNode (Some p) (mkState (base ++ news) ie)
  = Done n (mkState (base ++ news) ie).
Proof.
  intros H. unfold getNode. cbn [objPool].
  now rewrite (lookup_app_l_Some _ _ _ _ H).
Qed.

(** ** The label rewriting *)

Lemma rewriteLabels_PathBuild rw items :
  rewriteLabels rw (EPathBuild items)
  = match rewriteLabelsList rw items with
    | Some items' => Some (EPathBuild items')
    | None => None
    end.
Proof.
  cbn [rewriteLabels].
  replace ((fix rewriteAll (es : list Expr) : option (list Expr) :=
              match es with
              | [] => Some []
              | x :: xs =>
                  match rewriteLabels rw x, rewriteAll xs with
                  | Some x', Some xs' => Some (x' :: xs')
                  | _, _ => None
                  end
              end) items) with (rewriteLabelsList rw items); [reflexivity|].
  induction items as [|x xs IH]; [reflexivity|].
  cbn [rewriteLabelsList]. now rewrite IH.
Qed.

Lemma rewriteLabels_FunctionCall rw name args :
  rewriteLabels rw (EFunctionCall name args)
  = match rewriteLabelsList rw args with
    | Some args' => Some (EFunctionCall name args')
    | None => None
    end.
Proof.
  cbn [rewriteLabels].
  replace ((fix rewriteAll (es : list Expr) : option (list Expr) :=
              match es with
              | [] => Some []
              | x :: xs =>
                  match rewriteLabels rw x, rewriteAll xs with
                  | Some x', Some xs' => Some (x' :: xs')
                  | _, _ => None
                  end
              end) args) with (rewriteLabelsList rw args); [reflexivity|].
  induction args as [|x xs IH]; [reflexivity|].
  cbn [rewriteLabelsList]. now rewrite IH.
Qed.

(** On a list, rewriting succeeds with the substituted list as soon as it
    does so on every element. *)
Lemma rewriteLabelsList_subst rw scope es :
  Forall (fun e => rewriteLabels rw e = Some (substLabels scope e)) es ->
  rewriteLabelsList rw es = Some (map (substLabels scope) es).
Proof.
  induction 1 as [|x xs Hx _ IH]; [reflexivity|].
  cbn [rewriteLabelsList map]. now rewrite Hx, IH.
Qed.

(** The vertex rewriter never fails under the visitor: it is only asked
    about labels and label attributes, and it accepts both. *)
Lemma rewriteLabels_vertex (f : Expr) :
  rewriteLabels vertexRewriter f = Some (substLabels EVertex f).
Proof.
  induction f using Expr_nested_ind;
    try reflexivity.
  - cbn [rewriteLabels substLabels]. now rewrite IHf.
  - rewrite rewriteLabels_PathBuild.
    now rewrite (rewriteLabelsList_subst _ EVertex).
  - rewrite rewriteLabels_FunctionCall.
    now rewrite (rewriteLabelsList_subst _ EVertex).
  - cbn [rewriteLabels substLabels]. now rewrite IHf1, IHf2.
  - cbn [rewriteLabels substLabels]. now rewrite IHf1, IHf2.
  - cbn [rewriteLabels substLabels]. now rewrite IHf.
Qed.

Lemma existsb_false_Forall {A} (p : A -> bool) (l : list A) :
  existsb p l = false -> Forall (fun x => p x = false) l.
Proof.
  induction l as [|x xs IH]; cbn [existsb]; intros H; constructor.
  - now apply orb_false_iff in H.
  - apply IH. now apply orb_false_iff in H.
Qed.

(** The edge rewriter succeeds exactly on filters without bare labels. *)
Lemma rewriteLabels_edge (f : Expr) :
  hasBareLabel f = false ->
  rewriteLabels edgeRewriter f = Some (substLabels EEdge f).
Proof.
  induction f using Expr_nested_ind; cbn [hasBareLabel]; intros Hb;
    try reflexivity; try discriminate.
  - cbn [rewriteLabels substLabels]. now rewrite IHf.
  - rewrite rewriteLabels_PathBuild.
    rewrite (rewriteLabelsList_subst _ EEdge); [reflexivity|].
    apply existsb_false_Forall in Hb.
    rewrite Forall_forall in *. intros x Hx. apply H; [exact Hx|]. now apply Hb.
  - rewrite rewriteLabels_FunctionCall.
    rewrite (rewriteLabelsList_subst _ EEdge); [reflexivity|].
    apply existsb_false_Forall in Hb.
    rewrite Forall_forall in *. intros x Hx. apply H; [exact Hx|]. now apply Hb.
  - apply orb_false_iff in Hb as [H1 H2].
    cbn [rewriteLabels substLabels]. now rewrite IHf1, IHf2.
  - apply orb_false_iff in Hb as [H1 H2].
    cbn [rewriteLabels substLabels]. now rewrite IHf1, IHf2.
  - cbn [rewriteLabels substLabels]. now rewrite IHf.
Qed.
(** ** Symbolic execution on the arena

    One monadic step is run on an arena of the form [base ++ news], where
    [news] is the explicit list of the nodes added so far. *)

Ltac norm_pool :=
  rewrite ?length_app;
  cbn [length app alter list_alter Nat.add kind outputVar colNames deps body
       root tail fst snd objPool initialExpr_];
  rewrite <- ?Nat.add_assoc, <- ?app_assoc;
  cbn [length app Nat.add].

Ltac run_prim :=
  first [ apply allocNode_app
        | eapply modifyNode_app; reflexivity
        | eapply getNode_new; reflexivity
        | eapply getNode_old; eassumption
        | reflexivity ].

Ltac run_by tac :=
  rewrite ?bind_assoc_run;
  lazymatch goal with
  | |- bind ?m ?k ?st = _ =>
      erewrite (bind_Done m k st) by tac; norm_pool
  end.

Ltac run_step := run_by run_prim.

Ltac start_run pool ie :=
  replace (mkState pool ie) with (mkState (pool ++ []) ie)
    by (now rewrite app_nil_r).

Section StepProofs.
Context (K : Names) (matchCtx_ : MatchClauseContext).

Lemma passThrough_run pool ie r rn :
  pool !! r = Some rn ->
  passThrough matchCtx_ (Some r) (mkState pool ie)
  = Done (length pool) (mkState (pool ++ [passThroughNode r rn]) ie).
Proof.
  intros Hr. start_run pool ie. unfold passThrough, PassThroughNode_make.
  run_step. run_step. unfold setOutputVar. run_step. run_step.
  unfold setColNames. run_step.
  unfold ret, passThroughNode. now rewrite Nat.add_0_r.
Qed.

Lemma passThrough_null ie pool :
  exists f, passThrough matchCtx_ None (mkState pool ie) = Failed f.
Proof. eexists. reflexivity. Qed.

Lemma extractAndDedupVidColumn_run initialExpr dep inputVar plan pool ie :
  extractAndDedupVidColumn matchCtx_ initialExpr dep inputVar plan (mkState pool ie)
  = Done (mkSubPlan (Some (length pool + 1)) (Some (length pool)))
      (mkState (pool ++
         [ freshNode matchCtx_ (length pool) PNKind.kProject [dep]
             (BExtractVid initialExpr inputVar);
           freshNode matchCtx_ (length pool + 1) PNKind.kDedup
             [Some (length pool)] BNone ]) ie).
Proof.
  start_run pool ie. unfold extractAndDedupVidColumn.
  run_step. run_step. unfold ret, freshNode. now rewrite Nat.add_0_r.
Qed.

Lemma expandStep_run self edge dep inputVar nodeFilter pool ie :
  edgeFilterAccepted edge = true ->
  expandStep K matchCtx_ self edge dep inputVar nodeFilter (mkState pool ie)
  = Done (mkSubPlan (Some (stepRoot edge (length pool) nodeFilter))
                    (Some (length pool)))
      (mkState (pool ++ stepNodes K matchCtx_ self edge (length pool) ie dep
                                  inputVar nodeFilter) None).
Proof.
  intros Hok. start_run pool ie. unfold expandStep.
  run_step. run_by ltac:(apply extractAndDedupVidColumn_run).
  unfold GetNeighbors_make, setSrc, setVertexProps, setEdgeProps,
    setEdgeDirection, setBody.
  do 5 run_step.
  unfold edgeFilterAccepted in Hok.
  unfold stepRoot, stepNodes, Project_make, setColNames, acceptRewrite, Filter_make,
    visited.
  destruct edge as [dir types rng [ef|]], nodeFilter as [nf|];
    cbn [edge_filter attachFilter filterNodes length optCount] in *;
    unfold acceptRewrite, Filter_make, setColNames, visited;
    try destruct (rootIsLabel nf);
    try (destruct (rootIsLabel ef);
         [clear Hok|cbn [orb] in Hok; apply negb_true_iff in Hok]);
    rewrite ?rewriteLabels_vertex; repeat run_step;
    try rewrite (rewriteLabels_edge _ Hok); repeat run_step;
    unfold ret, fetchNodes, freshNode, pathProjectNode;
    rewrite ?Nat.add_0_r; reflexivity.
Qed.

Lemma collectData_run joinLeft joinRight inUnionNode plan pool ie :
  collectData K matchCtx_ joinLeft joinRight inUnionNode plan (mkState pool ie)
  = Done (Some (length pool + 3),
          mkSubPlan (Some (length pool + 4)) (Some (length pool)))
      (mkState (pool ++ collectNodes K matchCtx_ (length pool) joinLeft joinRight
                                     inUnionNode) ie).
Proof.
  start_run pool ie.
  unfold collectData, innerJoinSegments, setColNames, Project_make,
    filtPathHasSameEdge, Filter_make, PassThroughNode_make, setOutputVar, Union_make.
  repeat run_step.
  unfold ret, collectNodes. rewrite ?Nat.add_0_r. reflexivity.
Qed.

Lemma filterDatasetByPathLength_run edge i inode plan pool ie :
  pool !! i = Some inode ->
  filterDatasetByPathLength K matchCtx_ edge (Some i) plan (mkState pool ie)
  = Done (mkSubPlan (Some (length pool)) (tail plan))
      (mkState (pool ++
         [mkPlanNode PNKind.kFilter (anonVar matchCtx_ (length pool))
            (colNames inode) [Some i]
            (BFilter (pathLengthExpr K (edgeMinHop edge)))]) ie).
Proof.
  intros Hi. start_run pool ie.
  unfold filterDatasetByPathLength, Filter_make, setColNames.
  repeat run_step. unfold ret. rewrite ?Nat.add_0_r. reflexivity.
Qed.

Lemma appendFetchVertexPlan_run nodeFilter space initialExpr inputVar plan pool ie props :
  getAllVertexProp matchCtx_ space = Some props ->
  appendFetchVertexPlan matchCtx_ nodeFilter space initialExpr inputVar plan
    (mkState pool ie)
  = Done (mkSubPlan (Some (length pool)) (tail plan))
      (mkState (pool ++
         [freshNode matchCtx_ (length pool) PNKind.kGetVertices [root plan]
            (BGetVertices space initialExpr inputVar props nodeFilter)]) ie).
Proof.
  intros Hp. unfold appendFetchVertexPlan. rewrite Hp. reflexivity.
Qed.

Lemma appendFetchVertexPlan_fails nodeFilter space initialExpr inputVar plan st :
  getAllVertexProp matchCtx_ space = None ->
  appendFetchVertexPlan matchCtx_ nodeFilter space initialExpr inputVar plan st
  = Failed (StatusError "tag schema lookup failed").
Proof. intros Hp. unfold appendFetchVertexPlan. now rewrite Hp. Qed.

End StepProofs.
Section LoopProofs.
Context (K : Names) (matchCtx_ : MatchClauseContext).

Lemma stepNodes_length self edge n0 ie dep inputVar nodeFilter :
  length (stepNodes K matchCtx_ self edge n0 ie dep inputVar nodeFilter)
  = 4 + optCount nodeFilter + optCount (edge_filter edge).
Proof.
  unfold stepNodes. destruct nodeFilter, (edge_filter edge); reflexivity.
Qed.

Lemma stepRoot_next self edge n0 ie dep inputVar nodeFilter :
  n0 + length (stepNodes K matchCtx_ self edge n0 ie dep inputVar nodeFilter)
  = stepRoot edge n0 nodeFilter + 1.
Proof. rewrite stepNodes_length. unfold stepRoot. lia. Qed.

Lemma expandLoopBody_run self edge p pn r rn sp pool ie :
  edgeFilterAccepted edge = true ->
  pool !! p = Some pn ->
  root sp = Some r ->
  pool !! r = Some rn ->
  isUnionOrPassThrough rn = true ->
  expandLoopBody K matchCtx_ self edge (Some p, sp) (mkState pool ie)
  = Done (Some (stepRoot edge (length pool) None + 1 + 3),
          mkSubPlan (Some (stepRoot edge (length pool) None + 1 + 4))
                    (Some (stepRoot edge (length pool) None + 1)))
      (mkState (pool ++ iterationNodes K matchCtx_ self edge (length pool) ie
                                       p (outputVar pn) r) None).
Proof.
  intros Hok Hp Hroot Hr Hkind. unfold expandLoopBody. cbn [fst snd].
  erewrite bind_Done.
  2:{ unfold getNode. cbn [objPool]. rewrite Hp. reflexivity. }
  erewrite bind_Done by (apply expandStep_run; exact Hok).
  cbn [root]. rewrite Hroot.
  erewrite bind_Done.
  2:{ unfold getNode. cbn [objPool]. rewrite (lookup_app_l_Some _ _ _ _ Hr). reflexivity. }
  rewrite Hkind. cbn [dcheck]. rewrite bind_ret_run.
  rewrite collectData_run. rewrite length_app, stepRoot_next.
  unfold iterationNodes. rewrite <- app_assoc. reflexivity.
Qed.

Lemma forLoop_iterM {S} (body : S -> M S) (maxHop startIndex : Z) (s : S) st :
  forLoop body maxHop startIndex s st
  = iterM (Z.to_nat (maxHop - startIndex)) body s st.
Proof.
  remember (Z.to_nat (maxHop - startIndex)) as n eqn:Hn.
  revert startIndex s st Hn.
  induction n as [|n IH]; intros i s st Hn; simp forLoop;
    destruct (Z_lt_dec i maxHop) as [Hlt|Hge]; cbn; try lia.
  - reflexivity.
  - unfold bind. destruct (body s st) as [s' st'|f]; cbn; [|reflexivity].
    apply IH. lia.
Qed.

End LoopProofs.
Section DriverProofs.
Context (K : Names) (matchCtx_ : MatchClauseContext).

Lemma countKind_app k (a b : list PlanNode) :
  countKind k (a ++ b) = countKind k a + countKind k b.
Proof. unfold countKind. now rewrite List.filter_app, length_app. Qed.

Lemma stepNodes_kinds self edge n0 ie dep inputVar nodeFilter :
  let ns := stepNodes K matchCtx_ self edge n0 ie dep inputVar nodeFilter in
  countKind PNKind.kGetNeighbors ns = 1 /\
  countKind PNKind.kUnion ns = 0 /\
  countKind PNKind.kDataJoin ns = 0 /\
  countKind PNKind.kFilter ns = optCount nodeFilter + optCount (edge_filter edge).
Proof.
  unfold stepNodes. destruct nodeFilter, (edge_filter edge); repeat split; reflexivity.
Qed.

Lemma collectNodes_kinds n0 l r u :
  let ns := collectNodes K matchCtx_ n0 l r u in
  countKind PNKind.kGetNeighbors ns = 0 /\
  countKind PNKind.kUnion ns = 1 /\
  countKind PNKind.kDataJoin ns = 1.
Proof. repeat split; reflexivity. Qed.

Lemma stepNodes_root self edge n0 ie dep inputVar nodeFilter (pool : list PlanNode) :
  n0 = length pool ->
  (pool ++ stepNodes K matchCtx_ self edge n0 ie dep inputVar nodeFilter)
    !! stepRoot edge n0 nodeFilter
  = Some (stepProject K matchCtx_ edge n0 nodeFilter).
Proof.
  intros ->. unfold stepRoot, stepProject, stepNodes.
  rewrite <- !Nat.add_assoc, pool_lookup_new.
  destruct nodeFilter, (edge_filter edge); reflexivity.
Qed.

(** The edge rewriter's check fails on a filter with a bare label. *)
Lemma rewriteLabelsList_None rw es :
  Exists (fun e => rewriteLabels rw e = None) es ->
  rewriteLabelsList rw es = None.
Proof.
  induction 1 as [x xs Hx|x xs _ IH]; cbn [rewriteLabelsList].
  - now rewrite Hx.
  - rewrite IH. now destruct (rewriteLabels rw x).
Qed.

Lemma rewriteLabels_edge_fails (f : Expr) :
  hasBareLabel f = true -> rewriteLabels edgeRewriter f = None.
Proof.
  induction f using Expr_nested_ind; cbn [hasBareLabel]; intros Hb;
    try reflexivity; try discriminate.
  - cbn [rewriteLabels]. now rewrite IHf.
  - rewrite rewriteLabels_PathBuild, rewriteLabelsList_None; [reflexivity|].
    apply existsb_exists in Hb as [x [Hx Hbx]].
    apply Exists_exists. exists x. split; [now apply list_elem_of_In|].
    rewrite Forall_forall in H. apply H; [now apply list_elem_of_In|exact Hbx].
  - rewrite rewriteLabels_FunctionCall, rewriteLabelsList_None; [reflexivity|].
    apply existsb_exists in Hb as [x [Hx Hbx]].
    apply Exists_exists. exists x. split; [now apply list_elem_of_In|].
    rewrite Forall_forall in H. apply H; [now apply list_elem_of_In|exact Hbx].
  - cbn [rewriteLabels]. apply orb_true_iff in Hb as [Hb|Hb].
    + now rewrite IHf1.
    + rewrite IHf2 by exact Hb. now destruct (rewriteLabels edgeRewriter f1).
  - cbn [rewriteLabels]. apply orb_true_iff in Hb as [Hb|Hb].
    + now rewrite IHf1.
    + rewrite IHf2 by exact Hb. now destruct (rewriteLabels edgeRewriter f1).
  - cbn [rewriteLabels]. now rewrite IHf.
Qed.

Lemma expandStep_fails self edge dep inputVar nodeFilter st :
  edgeFilterAccepted edge = false ->
  expandStep K matchCtx_ self edge dep inputVar nodeFilter st
  = Failed (CheckFailed "unexpected expression kind in filter").
Proof.
  intros Hok. destruct st as [pool ie]. start_run pool ie. unfold expandStep.
  run_step. run_by ltac:(apply extractAndDedupVidColumn_run).
  unfold GetNeighbors_make, setSrc, setVertexProps, setEdgeProps,
    setEdgeDirection, setBody.
  do 5 run_step.
  unfold edgeFilterAccepted in Hok.
  destruct edge as [dir types rng [ef|]]; cbn [edge_filter] in *; [|discriminate].
  apply orb_false_iff in Hok as [Hroot Hok]. apply negb_false_iff in Hok.
  destruct nodeFilter as [nf|]; cbn [attachFilter];
    unfold acceptRewrite, Filter_make, setColNames;
    try destruct (rootIsLabel nf);
    rewrite ?rewriteLabels_vertex; repeat run_step;
    rewrite Hroot, (rewriteLabels_edge_fails _ Hok); reflexivity.
Qed.

End DriverProofs.
Section ExpandStepsProofs.
Context (K : Names) (matchCtx_ : MatchClauseContext).

(** The first stage when at least one hop is required. *)
Lemma expandFirst_hop self node edge plan pool ie :
  edgeMinHop edge <> 0%Z ->
  edgeFilterAccepted edge = true ->
  let n0 := length pool in
  let sr := stepRoot edge n0 (node_filter node) in
  expandFirst K matchCtx_ self node edge plan (mkState pool ie)
  = Done (1%Z, mkSubPlan (Some (sr + 1)) (Some n0))
      (mkState (pool ++ stepNodes K matchCtx_ self edge n0 ie (dependency_ self)
                          (inputVar_ self) (node_filter node)
                     ++ [passThroughNode sr
                           (stepProject K matchCtx_ edge n0 (node_filter node))])
               None).
Proof.
  intros Hmin Hok n0 sr. unfold expandFirst.
  apply Z.eqb_neq in Hmin. rewrite Hmin.
  erewrite bind_Done by (apply expandStep_run; exact Hok).
  cbn [root tail].
  erewrite bind_Done.
  2:{ apply passThrough_run. apply stepNodes_root. reflexivity. }
  unfold ret. rewrite length_app, stepRoot_next, <- app_assoc. reflexivity.
Qed.

(** The first stage of the zero-hop case. *)
Lemma expandFirst_zero self node edge plan pool ie props :
  edgeMinHop edge = 0%Z ->
  getAllVertexProp matchCtx_ (space_id matchCtx_) = Some props ->
  let n0 := length pool in
  let gv := fetchVertexNode matchCtx_ self node n0 ie plan props in
  expandFirst K matchCtx_ self node edge plan (mkState pool ie)
  = if (edgeMaxHop edge >? 0)%Z
    then Done (0%Z, mkSubPlan (Some (n0 + 1)) (tail plan))
              (mkState (pool ++ [gv; passThroughNode n0 gv]) None)
    else Done (0%Z, mkSubPlan (Some n0) (tail plan))
              (mkState (pool ++ [gv]) None).
Proof.
  intros Hmin Hp n0 gv. unfold expandFirst. rewrite Hmin. cbn [Z.eqb].
  erewrite bind_Done by reflexivity. cbn [objPool].
  erewrite bind_Done by (apply appendFetchVertexPlan_run; exact Hp).
  destruct (edgeMaxHop edge >? 0)%Z.
  - rewrite bind_assoc_run. cbn [root tail].
    erewrite bind_Done.
    2:{ apply passThrough_run. now apply list_lookup_middle. }
    unfold ret, bind. rewrite length_app, <- app_assoc. reflexivity.
  - reflexivity.
Qed.

Lemma expandFirst_zero_fails self node edge plan st :
  edgeMinHop edge = 0%Z ->
  getAllVertexProp matchCtx_ (space_id matchCtx_) = None ->
  expandFirst K matchCtx_ self node edge plan st
  = Failed (StatusError "tag schema lookup failed").
Proof.
  intros Hmin Hp. unfold expandFirst. rewrite Hmin. cbn [Z.eqb].
  erewrite bind_Done by reflexivity.
  erewrite bind_Failed by (apply appendFetchVertexPlan_fails; exact Hp).
  reflexivity.
Qed.

(** One iteration from a ready loop state: it succeeds, stays ready,
    and adds one neighbor fetch, one join and one union, the union being
    the new running root with the single column [kPathStr]. *)
Lemma expandLoopBody_ready self edge s st :
  edgeFilterAccepted edge = true ->
  loopReady s st ->
  exists s' news u un,
    expandLoopBody K matchCtx_ self edge s st
      = Done s' (mkState (objPool st ++ news) None) /\
    loopReady s' (mkState (objPool st ++ news) None) /\
    countKind PNKind.kGetNeighbors news = 1 /\
    countKind PNKind.kDataJoin news = 1 /\
    countKind PNKind.kUnion news = 1 /\
    root (snd s') = Some u /\
    (objPool st ++ news) !! u = Some un /\
    kind un = PNKind.kUnion /\ colNames un = [kPathStr K].
Proof.
  intros Hok (p & pn & r & rn & Hp & Hpn & Hr & Hrn & Hk).
  destruct s as [pt sp], st as [pool ie]. cbn [fst snd objPool] in *. subst pt.
  pose proof (expandLoopBody_run K matchCtx_ self edge p pn r rn sp pool ie
                Hok Hpn Hr Hrn Hk) as Hrun.
  set (news := iterationNodes K matchCtx_ self edge (length pool) ie p
                              (outputVar pn) r) in *.
  set (n1 := stepRoot edge (length pool) None + 1) in *.
  assert (Hlen : n1 = length pool
                      + length (stepNodes K matchCtx_ self edge (length pool) ie
                                  (Some p) (outputVar pn) None)).
  { unfold n1. now rewrite stepRoot_next. }
  assert (Hnew : forall k,
             (pool ++ news) !! (n1 + k)
             = collectNodes K matchCtx_ n1 (Some p)
                 (Some (stepRoot edge (length pool) None)) (Some r) !! k).
  { intros k. unfold news, iterationNodes. rewrite Hlen at 1.
    rewrite <- Nat.add_assoc, pool_lookup_new.
    rewrite lookup_app_r by lia.
    f_equal. lia. }
  destruct (stepNodes_kinds K matchCtx_ self edge (length pool) ie (Some p)
              (outputVar pn) None) as (Hg & Hu & Hj & _).
  eexists _, news, (n1 + 4), _. split; [exact Hrun|].
  repeat split.
  - eexists (n1 + 3), _, (n1 + 4), _. cbn [fst snd root objPool].
    repeat split; try (rewrite Hnew; reflexivity). reflexivity.
  - unfold news, iterationNodes. rewrite countKind_app. now rewrite Hg.
  - unfold news, iterationNodes. rewrite countKind_app. now rewrite Hj.
  - unfold news, iterationNodes. rewrite countKind_app. now rewrite Hu.
  - rewrite Hnew. reflexivity.
  - reflexivity.
  - reflexivity.
Qed.

End ExpandStepsProofs.
Section IterationProofs.
Context (K : Names) (matchCtx_ : MatchClauseContext).

(** [n] iterations from a ready loop state all run to completion and add
    [n] neighbor fetches, [n] joins and [n] unions. *)
Lemma iterM_ready self edge n : forall s st,
  edgeFilterAccepted edge = true ->
  loopReady s st ->
  exists s' st' news,
    iterM n (expandLoopBody K matchCtx_ self edge) s st = Done s' st' /\
    objPool st' = objPool st ++ news /\
    loopReady s' st' /\
    countKind PNKind.kGetNeighbors news = n /\
    countKind PNKind.kDataJoin news = n /\
    countKind PNKind.kUnion news = n.
Proof.
  induction n as [|n IH]; intros s st Hok Hready.
  - exists s, st, []. cbn [iterM]. rewrite app_nil_r. repeat split; auto.
  - destruct (expandLoopBody_ready K matchCtx_ self edge s st Hok Hready)
      as (s1 & news1 & u & un & Hrun & Hready1 & Hg & Hj & Hu & _).
    destruct (IH s1 _ Hok Hready1)
      as (s2 & st2 & news2 & Hiter & Hpool & Hready2 & Hg2 & Hj2 & Hu2).
    exists s2, st2, (news1 ++ news2). cbn [iterM].
    erewrite bind_Done by exact Hrun. split; [exact Hiter|].
    cbn [objPool] in Hpool. rewrite Hpool, <- app_assoc.
    rewrite !countKind_app. repeat split; auto; lia.
Qed.

(** The start index that [expandSteps] hands to its loop. *)
Lemma expandFirst_startIndex self node edge plan st first st1 :
  expandFirst K matchCtx_ self node edge plan st = Done first st1 ->
  fst first = if (edgeMinHop edge =? 0)%Z then 0%Z else 1%Z.
Proof.
  unfold expandFirst. destruct (edgeMinHop edge =? 0)%Z; unfold bind.
  - destruct (releaseInitialExpr st) as [ie st0|]; [|discriminate].
    destruct (appendFetchVertexPlan _ _ _ _ _ _ _) as [sub st2|]; [|discriminate].
    destruct (edgeMaxHop edge >? 0)%Z.
    + destruct (passThrough _ _ _) as [pt st3|]; [|discriminate].
      unfold ret. now intros [= <- _].
    + unfold ret. now intros [= <- _].
  - destruct (expandStep _ _ _ _ _ _ _ _) as [sub st2|]; [|discriminate].
    destruct (passThrough _ _ _) as [pt st3|]; [|discriminate].
    unfold ret. now intros [= <- _].
Qed.

(** After a successful first stage the loop is ready to run, unless the
    zero-hop case asks for no iteration at all. *)
Lemma expandFirst_ready self node edge plan st first st1 :
  expandFirst K matchCtx_ self node edge plan st = Done first st1 ->
  (edgeMinHop edge = 0 /\ edgeMaxHop edge <= 0)%Z
  \/ loopReady (root (snd first), snd first) st1.
Proof.
  intros Hfirst. destruct st as [pool ie].
  destruct (Z.eq_dec (edgeMinHop edge) 0%Z) as [Hmin|Hmin].
  - destruct (getAllVertexProp matchCtx_ (space_id matchCtx_)) as [props|] eqn:Hp.
    + rewrite (expandFirst_zero K matchCtx_ self node edge plan pool ie props Hmin Hp)
        in Hfirst.
      destruct (edgeMaxHop edge >? 0)%Z eqn:Hmax.
      * right. injection Hfirst as <- <-. cbn [fst snd root].
        eexists (length pool + 1), _, (length pool + 1), _. cbn [objPool].
        repeat split; try (rewrite pool_lookup_new; reflexivity). reflexivity.
      * left. split; [exact Hmin|]. rewrite Z.gtb_ltb in Hmax. now apply Z.ltb_ge in Hmax.
    + rewrite (expandFirst_zero_fails K matchCtx_ self node edge plan _ Hmin Hp)
        in Hfirst. discriminate.
  - right. destruct (edgeFilterAccepted edge) eqn:Hok.
    + pose proof (expandFirst_hop K matchCtx_ self node edge plan pool ie Hmin Hok)
        as Hrun.
      cbv zeta in Hrun. rewrite Hrun in Hfirst. clear Hrun.
      set (ns := stepNodes K matchCtx_ self edge (length pool) ie (dependency_ self)
                           (inputVar_ self) (node_filter node)) in *.
      set (ptn := passThroughNode _ _) in *.
      assert (Hl : stepRoot edge (length pool) (node_filter node) + 1
                   = length (pool ++ ns)).
      { unfold ns. now rewrite length_app, stepRoot_next. }
      rewrite Hl, app_assoc in Hfirst.
      assert (Hf : first = (1%Z, mkSubPlan (Some (length (pool ++ ns))) (Some (length pool))))
        by congruence.
      assert (Hs : st1 = mkState ((pool ++ ns) ++ [ptn]) None) by congruence.
      subst first st1. cbn [fst snd root].
      exists (length (pool ++ ns)), ptn, (length (pool ++ ns)), ptn. cbn [objPool].
      repeat split; try (now apply list_lookup_middle).
    + unfold expandFirst in Hfirst. apply Z.eqb_neq in Hmin. rewrite Hmin in Hfirst.
      erewrite bind_Failed in Hfirst by (apply expandStep_fails; exact Hok).
      discriminate.
Qed.

End IterationProofs.
(** ** Edge property specifications *)

Section EdgePropsProofs.
Context (K : Names) (matchCtx_ : MatchClauseContext).

Lemma fold_left_snoc {A B} (f : B -> A) (l : list B) (acc : list A) :
  fold_left (fun a x => a ++ [f x]) l acc = acc ++ map f l.
Proof.
  revert acc. induction l as [|x l IH]; intros acc; cbn [fold_left map].
  - now rewrite app_nil_r.
  - rewrite IH. now rewrite <- app_assoc.
Qed.

Lemma edgePropNames_fullColumns (edgeType : EdgeType) :
  edgePropNames K (getEdgeSchema matchCtx_ (space_id matchCtx_) edgeType)
  = fullColumns K matchCtx_ edgeType.
Proof. unfold edgePropNames, fullColumns. apply fold_left_snoc. Qed.

Lemma genEdgeProps_fold self (dir : Direction) (ts : list EdgeType)
    (acc : list EdgeProp) :
  fold_left (genEdgeProps_step K matchCtx_ self dir) ts acc
  = acc ++ flat_map (propsOfType K matchCtx_ (reversely_ self) dir) ts.
Proof.
  revert acc. induction ts as [|t ts IH]; intros acc; cbn [fold_left flat_map].
  - now rewrite app_nil_r.
  - rewrite IH. unfold genEdgeProps_step, propsOfType.
    rewrite edgePropNames_fullColumns.
    destruct dir, (reversely_ self); cbn [negb app];
      rewrite <- ?app_assoc; reflexivity.
Qed.

Lemma genEdgeProps_flat_map self (edge : EdgeInfo) :
  genEdgeProps K matchCtx_ self edge
  = flat_map (propsOfType K matchCtx_ (reversely_ self) (direction edge))
             (edgeTypes edge).
Proof. unfold genEdgeProps. now rewrite genEdgeProps_fold. Qed.

Lemma flat_map_singleton {A B} (f : A -> B) (l : list A) :
  flat_map (fun x => [f x]) l = map f l.
Proof. induction l as [|x l IH]; cbn [flat_map map app]; congruence. Qed.

Lemma flat_map_pair_length {A B} (f g : A -> B) (l : list A) :
  length (flat_map (fun x => [f x; g x]) l) = 2 * length l.
Proof. induction l as [|x l IH]; cbn [flat_map length app] in *; lia. Qed.

(** C1. In [genEdgeProps], direction OUT fetches every edge type under
    its positive id, or under the negated id when the expansion runs
    reversely; direction IN fetches under the negated id, or under the
    positive id when reversely; for direction BOTH the emitted
    specifications do not depend on the reversely flag. *)
Theorem genEdgeProps_direction (self : Expand) (edge : EdgeInfo) :
  (direction edge = OUT_EDGE ->
   map ep_type (genEdgeProps K matchCtx_ self edge)
   = map (fun t => if reversely_ self then (- t)%Z else t) (edgeTypes edge)) /\
  (direction edge = IN_EDGE ->
   map ep_type (genEdgeProps K matchCtx_ self edge)
   = map (fun t => if reversely_ self then t else (- t)%Z) (edgeTypes edge)) /\
  (direction edge = BOTH ->
   forall other : Expand,
     genEdgeProps K matchCtx_ other edge = genEdgeProps K matchCtx_ self edge).
Proof.
  rewrite genEdgeProps_flat_map. repeat split; intros Hdir; rewrite Hdir.
  - unfold propsOfType. rewrite flat_map_singleton, map_map. reflexivity.
  - unfold propsOfType. rewrite flat_map_singleton, map_map. reflexivity.
  - intros other. rewrite genEdgeProps_flat_map, Hdir. reflexivity.
Qed.

(** C3. For direction BOTH and [n] edge types [genEdgeProps] returns
    [2n] specifications: for each type one under the negated id and one
    under the positive id, both with the column list source, type, rank,
    destination followed by every schema field of the type; for OUT and
    IN it returns [n] specifications. *)
Theorem genEdgeProps_count (self : Expand) (edge : EdgeInfo) :
  (direction edge = BOTH ->
   genEdgeProps K matchCtx_ self edge
   = flat_map (fun t => [ mkEdgeProp (- t)%Z (fullColumns K matchCtx_ t);
                          mkEdgeProp t (fullColumns K matchCtx_ t) ])
              (edgeTypes edge)
   /\ length (genEdgeProps K matchCtx_ self edge) = 2 * length (edgeTypes edge)) /\
  (direction edge <> BOTH ->
   length (genEdgeProps K matchCtx_ self edge) = length (edgeTypes edge)).
Proof.
  rewrite genEdgeProps_flat_map. split; intros Hdir.
  - rewrite Hdir. unfold propsOfType. split; [reflexivity|].
    apply flat_map_pair_length.
  - unfold propsOfType.
    destruct (direction edge); [| |congruence];
      now rewrite flat_map_singleton, length_map.
Qed.

End EdgePropsProofs.

Lemma genEdgeProps_direction_witness :
  map ep_type (genEdgeProps Sample.names Sample.ctx Sample.backward Sample.outKnows)
    = [(-5)%Z; (-7)%Z] /\
  map ep_type (genEdgeProps Sample.names Sample.ctx Sample.forward Sample.inKnows)
    = [(-5)%Z; (-7)%Z] /\
  genEdgeProps Sample.names Sample.ctx Sample.backward Sample.bothKnows
    = genEdgeProps Sample.names Sample.ctx Sample.forward Sample.bothKnows.
Proof.
  split; [|split].
  - exact (proj1 (genEdgeProps_direction Sample.names Sample.ctx Sample.backward
                    Sample.outKnows) eq_refl).
  - exact (proj1 (proj2 (genEdgeProps_direction Sample.names Sample.ctx
                           Sample.forward Sample.inKnows)) eq_refl).
  - exact (proj2 (proj2 (genEdgeProps_direction Sample.names Sample.ctx
                           Sample.forward Sample.bothKnows)) eq_refl Sample.backward).
Defined.

Lemma genEdgeProps_count_witness :
  length (genEdgeProps Sample.names Sample.ctx Sample.forward Sample.bothKnows) = 2 /\
  length (genEdgeProps Sample.names Sample.ctx Sample.forward Sample.outKnows) = 2.
Proof.
  split.
  - exact (proj2 (proj1 (genEdgeProps_count Sample.names Sample.ctx Sample.forward
                           Sample.bothKnows) eq_refl)).
  - apply (proj2 (genEdgeProps_count Sample.names Sample.ctx Sample.forward
                    Sample.outKnows)).
    discriminate.
Defined.

(** ** The path-length post-filter *)

Section PathLengthProofs.
Context (K : Names) (matchCtx_ : MatchClauseContext).

(** C2.  [filterDatasetByPathLength] adds exactly one node to the arena:
    a filter over the input node, which becomes the plan root and keeps
    the input's column names.  Its predicate is the one the source
    writes as [length(relationships(p)) >= minHop]: the [length] function
    called on the path column, compared by [>=] with the declared minimum
    hop count, which is 1 when no range is declared.  On a row it holds
    exactly when the path of the row has at least [minHop]
    relationships.  Nothing else is attached, so there is no [<= maxHop]
    filter. *)
Theorem filterDatasetByPathLength_attaches (edge : EdgeInfo) (i : NodeId)
    (inode : PlanNode) (plan : SubPlan) (pool : list PlanNode) (ie : option Expr) :
  pool !! i = Some inode ->
  let minHop := match range edge with
                | None => 1%Z
                | Some r => range_min r
                end in
  let predicate :=
    ERelational kRelGE
      (EFunctionCall "length" [EInputProperty (kPathStr K)])
      (EConstant (VInt minHop)) in
  filterDatasetByPathLength K matchCtx_ edge (Some i) plan (mkState pool ie)
  = Done (mkSubPlan (Some (length pool)) (tail plan))
      (mkState
         (pool ++
          [ mkPlanNode PNKind.kFilter (anonVar matchCtx_ (length pool))
              (colNames inode) [Some i] (BFilter predicate) ])
         ie) /\
  (forall (row : string -> option PathValue) (p : PathValue),
     row (kPathStr K) = Some p ->
     evalOnRow row predicate
     = Some (RBool (minHop <=? Z.of_nat (length (relationships p)))%Z)).
Proof.
  intros Hi minHop predicate. split.
  - now rewrite (filterDatasetByPathLength_run K matchCtx_ edge i inode plan pool ie Hi).
  - intros row p Hrow. unfold predicate. cbn [evalOnRow String.eqb Ascii.eqb Bool.eqb].
    now rewrite Hrow.
Qed.

End PathLengthProofs.

Lemma filterDatasetByPathLength_attaches_witness :
  filterDatasetByPathLength Sample.names Sample.ctx Sample.oneToThree (Some 0)
    emptySubPlan
    (mkState [mkPlanNode PNKind.kUnion "__u" ["path"] [] BNone] None)
  = Done (mkSubPlan (Some 1) None)
      (mkState
         [ mkPlanNode PNKind.kUnion "__u" ["path"] [] BNone;
           mkPlanNode PNKind.kFilter "__var_1" ["path"] [Some 0]
             (BFilter
                (ERelational kRelGE
                   (EFunctionCall "length" [EInputProperty "path"])
                   (EConstant (VInt 1)))) ]
         None) /\
  evalOnRow (fun _ => Some (mkPath 1 [(5%Z, 2%Z); (5%Z, 3%Z)]))
    (ERelational kRelGE (EFunctionCall "length" [EInputProperty "path"])
                        (EConstant (VInt 1)))
  = Some (RBool true).
Proof.
  destruct (filterDatasetByPathLength_attaches Sample.names Sample.ctx
              Sample.oneToThree 0 (mkPlanNode PNKind.kUnion "__u" ["path"] [] BNone)
              emptySubPlan [mkPlanNode PNKind.kUnion "__u" ["path"] [] BNone] None
              eq_refl) as [Hrun Heval].
  split; [exact Hrun|].
  exact (Heval (fun _ => Some (mkPath 1 [(5%Z, 2%Z); (5%Z, 3%Z)])) _ eq_refl).
Defined.

(** ** The segment collector *)

Section CollectProofs.
Context (K : Names) (matchCtx_ : MatchClauseContext).

(** Whatever state a successful iteration of the loop started from, its
    last action was a [collectData]. *)
Lemma expandLoopBody_ends_with_collectData self edge s st s' st' :
  expandLoopBody K matchCtx_ self edge s st = Done s' st' ->
  exists l r u plan pool ie,
    collectData K matchCtx_ l r u plan (mkState pool ie) = Done s' st'.
Proof.
  unfold expandLoopBody, bind.
  destruct (getNode (fst s) st) as [p st1|]; [|discriminate].
  destruct (expandStep _ _ _ _ _ _ _ st1) as [curr st2|]; [|discriminate].
  destruct (getNode (root (snd s)) st2) as [r st3|]; [|discriminate].
  destruct (dcheck _ _ st3) as [[] st4|]; [|discriminate].
  destruct st4 as [pool ie]. intros H. eauto 8.
Qed.

Lemma running_union_of_collectData l r u plan pool ie s' st' :
  collectData K matchCtx_ l r u plan (mkState pool ie) = Done s' st' ->
  exists un uid,
    root (snd s') = Some uid /\ objPool st' !! uid = Some un /\
    kind un = PNKind.kUnion /\ colNames un = [kPathStr K].
Proof.
  rewrite collectData_run. intros [= <- <-]. cbn [snd root objPool].
  eexists _, _. split; [reflexivity|]. rewrite pool_lookup_new.
  split; [reflexivity|]. split; reflexivity.
Qed.

Lemma iterM_succ_last {S} (body : S -> M S) n s st :
  iterM (Datatypes.S n) body s st = bind (iterM n body s) body st.
Proof.
  revert s st. induction n as [|n IH]; intros s st.
  - cbn [iterM]. unfold bind, ret. now destruct (body s st).
  - change (iterM (Datatypes.S (Datatypes.S n)) body s st)
      with (bind (body s) (fun s1 => iterM (Datatypes.S n) body s1) st).
    change (iterM (Datatypes.S n) body s)
      with (bind (body s) (fun s1 => iterM n body s1)).
    rewrite bind_assoc_run.
    destruct (body s st) as [s1 st1|f] eqn:Hb.
    + rewrite !(bind_Done _ _ _ _ _ Hb). apply IH.
    + now rewrite !(bind_Failed _ _ _ _ Hb).
Qed.

(** C4. [collectData] adds five nodes, each depending on the one before:
    the inner join of the previous accumulator and the new fragment with
    the columns [path_0] and [path_1]; the projection that merges the two
    path columns into the single column [path]; the same-edge filter over
    that column; the pass-through accumulator with the column [path]; and
    the union of that accumulator with the previous running root, with
    the column [path].  Hence after every iteration of the expansion
    loop, and after any positive number of them, the running root is a
    union node whose column names are exactly [path]. *)
Theorem collectData_running_union :
  (forall (joinLeft joinRight inUnionNode : PlanNodePtr) (plan : SubPlan)
          (pool : list PlanNode) (ie : option Expr),
     let n0 := length pool in
     let lpath := (kPathStr K ++ "_0")%string in
     let rpath := (kPathStr K ++ "_1")%string in
     collectData K matchCtx_ joinLeft joinRight inUnionNode plan (mkState pool ie)
     = Done (Some (n0 + 3), mkSubPlan (Some (n0 + 4)) (Some n0))
         (mkState
            (pool ++
             [ mkPlanNode PNKind.kDataJoin (anonVar matchCtx_ n0) [lpath; rpath]
                 [joinLeft; joinRight] BNone;
               mkPlanNode PNKind.kProject (anonVar matchCtx_ (n0 + 1)) [kPathStr K]
                 [Some n0]
                 (BProject
                    [mkYieldColumn
                       (EPathBuild [EInputProperty lpath; EInputProperty rpath])
                       None]);
               mkPlanNode PNKind.kFilter (anonVar matchCtx_ (n0 + 2)) []
                 [Some (n0 + 1)]
                 (BFilter
                    (EUnary kUnaryNot
                       (EFunctionCall "hasSameEdgeInPath"
                          [EInputProperty (kPathStr K)])));
               mkPlanNode PNKind.kPassThrough (anonVar matchCtx_ (n0 + 2))
                 [kPathStr K] [Some (n0 + 2)] BNone;
               mkPlanNode PNKind.kUnion (anonVar matchCtx_ (n0 + 4)) [kPathStr K]
                 [Some (n0 + 3); inUnionNode] BNone ])
            ie)) /\
  (forall (self : Expand) (edge : EdgeInfo) (n : nat)
          (s s' : PlanNodePtr * SubPlan) (st st' : PlanState),
     iterM (Datatypes.S n) (expandLoopBody K matchCtx_ self edge) s st = Done s' st' ->
     exists un uid,
       root (snd s') = Some uid /\ objPool st' !! uid = Some un /\
       kind un = PNKind.kUnion /\ colNames un = [kPathStr K]).
Proof.
  split.
  - intros. apply collectData_run.
  - intros self edge n s s' st st'. rewrite iterM_succ_last. unfold bind.
    destruct (iterM n _ s st) as [s1 st1|]; [|discriminate].
    intros Hbody.
    destruct (expandLoopBody_ends_with_collectData _ _ _ _ _ _ Hbody)
      as (l & r & u & plan & pool & ie & Hc).
    exact (running_union_of_collectData _ _ _ _ _ _ _ _ Hc).
Qed.

End CollectProofs.

Lemma collectData_running_union_witness :
  exists s' st' un uid,
    iterM 2 (expandLoopBody Sample.names Sample.ctx Sample.forward Sample.oneToThree)
      (Some 0, mkSubPlan (Some 0) None)
      (mkState [mkPlanNode PNKind.kPassThrough "__p" ["path"] [None] BNone] None)
    = Done s' st' /\
    root (snd s') = Some uid /\ objPool st' !! uid = Some un /\
    kind un = PNKind.kUnion /\ colNames un = ["path"].
Proof.
  destruct (iterM 2 (expandLoopBody Sample.names Sample.ctx Sample.forward
                                    Sample.oneToThree)
              (Some 0, mkSubPlan (Some 0) None)
              (mkState [mkPlanNode PNKind.kPassThrough "__p" ["path"] [None] BNone]
                       None))
    as [s' st'|f] eqn:Hrun.
  - destruct (proj2 (collectData_running_union Sample.names Sample.ctx)
                Sample.forward Sample.oneToThree 1 _ _ _ _ Hrun)
      as (un & uid & P).
    exists s', st', un, uid. split; [reflexivity|exact P].
  - vm_compute in Hrun. discriminate Hrun.
Defined.

(** ** Pass-through wiring *)

Section PassThroughProofs.
Context (K : Names) (matchCtx_ : MatchClauseContext).

(** C10. The node returned by [passThrough] for a plan node [r] is a new
    pass-through node that depends on [r] and carries [r]'s output
    variable and column names; [r] and every other node already in the
    arena stay as they were.  Likewise the pass-through accumulator made
    by [collectData] carries the output variable of the same-edge filter
    node it depends on. *)
Theorem passThrough_copies_output (r : NodeId) (rn : PlanNode)
    (pool : list PlanNode) (ie : option Expr) :
  pool !! r = Some rn ->
  (exists pt ptn,
     passThrough matchCtx_ (Some r) (mkState pool ie)
       = Done pt (mkState (pool ++ [ptn]) ie) /\
     (pool ++ [ptn]) !! pt = Some ptn /\
     kind ptn = PNKind.kPassThrough /\
     outputVar ptn = outputVar rn /\
     colNames ptn = colNames rn /\
     deps ptn = [Some r] /\
     (pool ++ [ptn]) !! r = Some rn) /\
  (forall joinLeft joinRight inUnionNode plan,
   exists acc union news accNode f filterNode,
     collectData K matchCtx_ joinLeft joinRight inUnionNode plan (mkState pool ie)
       = Done (Some acc, union) (mkState (pool ++ news) ie) /\
     (pool ++ news) !! acc = Some accNode /\
     kind accNode = PNKind.kPassThrough /\
     deps accNode = [Some f] /\
     (pool ++ news) !! f = Some filterNode /\
     kind filterNode = PNKind.kFilter /\
     outputVar accNode = outputVar filterNode /\
     (pool ++ news) !! r = Some rn).
Proof.
  intros Hr. split.
  - exists (length pool), (passThroughNode r rn).
    rewrite (passThrough_run matchCtx_ pool ie r rn Hr).
    repeat split; try reflexivity.
    + now apply list_lookup_middle.
    + now apply lookup_app_l_Some.
  - intros joinLeft joinRight inUnionNode plan.
    eexists _, _, _, _, _, _. rewrite collectData_run.
    split; [reflexivity|].
    rewrite !pool_lookup_new.
    repeat split; try reflexivity.
    now apply lookup_app_l_Some.
Qed.

End PassThroughProofs.

Lemma passThrough_copies_output_witness :
  exists pt ptn,
    passThrough Sample.ctx (Some 0)
      (mkState [mkPlanNode PNKind.kProject "__out" ["path"] [None] BNone] None)
    = Done pt (mkState [mkPlanNode PNKind.kProject "__out" ["path"] [None] BNone; ptn]
                       None) /\
    outputVar ptn = "__out" /\ colNames ptn = ["path"] /\ deps ptn = [Some 0].
Proof.
  destruct (proj1 (passThrough_copies_output Sample.names Sample.ctx 0
                     (mkPlanNode PNKind.kProject "__out" ["path"] [None] BNone)
                     [mkPlanNode PNKind.kProject "__out" ["path"] [None] BNone]
                     None eq_refl))
    as (pt & ptn & Hrun & _ & _ & Hvar & Hcols & Hdeps & _).
  exists pt, ptn. repeat split; assumption.
Defined.

(** ** The one-hop step *)

Section ExpandStepClaims.
Context (K : Names) (matchCtx_ : MatchClauseContext).

Lemma expandStep_Done_inv self edge dep inputVar nodeFilter pool ie plan st' :
  expandStep K matchCtx_ self edge dep inputVar nodeFilter (mkState pool ie)
    = Done plan st' ->
  edgeFilterAccepted edge = true /\
  plan = mkSubPlan (Some (stepRoot edge (length pool) nodeFilter)) (Some (length pool)) /\
  st' = mkState (pool ++ stepNodes K matchCtx_ self edge (length pool) ie dep
                                   inputVar nodeFilter) None.
Proof.
  intros Hrun. destruct (edgeFilterAccepted edge) eqn:Hok.
  - rewrite (expandStep_run K matchCtx_ self edge dep inputVar nodeFilter pool ie Hok)
      in Hrun.
    split; [reflexivity|]. split; congruence.
  - rewrite (expandStep_fails K matchCtx_ self edge dep inputVar nodeFilter _ Hok)
      in Hrun. discriminate.
Qed.

(** C8. A successful [expandStep] on an arena of [n0] nodes adds, in
    dependency order: the frontier extraction over the given dependency,
    its dedup, the neighbor fetch, a vertex filter only when a node filter
    is given, an edge filter only when the edge has one, and a projection
    of the one-hop path built from the fetched vertex and edge.  The
    returned root is that projection, with column names exactly [path];
    the returned tail is the frontier extraction node.  Each filter node
    carries the clone of its filter as the label visitor left it.  The
    call succeeds whenever the visitor meets no bare label below the root
    of the edge filter. *)
Theorem expandStep_shape (self : Expand) (edge : EdgeInfo) (dep : PlanNodePtr)
    (inputVar : string) (nodeFilter : option Expr) (pool : list PlanNode)
    (ie : option Expr) :
  let n0 := length pool in
  let nv := optCount nodeFilter in
  let ne := optCount (edge_filter edge) in
  let r := n0 + 3 + nv + ne in
  let extraction :=
    mkPlanNode PNKind.kProject (anonVar matchCtx_ n0) [] [dep]
      (BExtractVid ie inputVar) in
  let dedup :=
    mkPlanNode PNKind.kDedup (anonVar matchCtx_ (n0 + 1)) [] [Some n0] BNone in
  let fetch :=
    mkPlanNode PNKind.kGetNeighbors (anonVar matchCtx_ (n0 + 2)) []
      [Some (n0 + 1)]
      (BGetNeighbors (space_id matchCtx_) (Some (EInputProperty (kVid K)))
         (Some []) (Some (genEdgeProps K matchCtx_ self edge))
         (Some (direction edge))) in
  let projection :=
    mkPlanNode PNKind.kProject (anonVar matchCtx_ r) [kPathStr K]
      [Some (n0 + 2 + nv + ne)]
      (BProject [mkYieldColumn (EPathBuild [EVertex; EEdge])
                               (Some (kPathStr K))]) in
  let news :=
    [extraction; dedup; fetch]
    ++ filterNodes matchCtx_ (n0 + 3) (n0 + 2) EVertex nodeFilter
    ++ filterNodes matchCtx_ (n0 + 3 + nv) (n0 + 2 + nv) EEdge (edge_filter edge)
    ++ [projection] in
  (forall plan st',
     expandStep K matchCtx_ self edge dep inputVar nodeFilter (mkState pool ie)
       = Done plan st' ->
     plan = mkSubPlan (Some r) (Some n0) /\
     st' = mkState (pool ++ news) None /\
     objPool st' !! r = Some projection /\
     objPool st' !! n0 = Some extraction) /\
  (edgeFilterAccepted edge = true ->
   expandStep K matchCtx_ self edge dep inputVar nodeFilter (mkState pool ie)
     = Done (mkSubPlan (Some r) (Some n0)) (mkState (pool ++ news) None)).
Proof.
  intros n0 nv ne r extraction dedup fetch projection news.
  assert (Hnews : news = stepNodes K matchCtx_ self edge n0 ie dep inputVar nodeFilter)
    by reflexivity.
  assert (Hr : r = stepRoot edge n0 nodeFilter) by reflexivity.
  split.
  - intros plan st' Hrun.
    apply expandStep_Done_inv in Hrun as (Hok & -> & ->).
    fold n0. rewrite <- Hnews, <- Hr. repeat split; cbn [objPool].
    + rewrite Hnews, Hr. unfold n0. rewrite stepNodes_root by reflexivity.
      reflexivity.
    + rewrite <- (Nat.add_0_r n0). unfold n0. rewrite pool_lookup_new. reflexivity.
  - intros Hok. rewrite Hnews, Hr. now apply expandStep_run.
Qed.

End ExpandStepClaims.

Lemma expandStep_shape_witness :
  exists st' rn,
    expandStep Sample.names Sample.ctx Sample.forward Sample.oneToThree None
      "__start" (node_filter Sample.adults) Sample.start
    = Done (mkSubPlan (Some 5) (Some 0)) st' /\
    objPool st' !! 5 = Some rn /\
    kind rn = PNKind.kProject /\ colNames rn = ["path"].
Proof.
  pose proof (expandStep_shape Sample.names Sample.ctx Sample.forward
                Sample.oneToThree None "__start" (node_filter Sample.adults)
                [] (Some (EVariable "vid"))) as [Hshape Hruns].
  specialize (Hruns eq_refl).
  destruct (Hshape _ _ Hruns) as (_ & _ & Hroot & _).
  eexists _, _. split; [exact Hruns|]. split; [exact Hroot|]. split; reflexivity.
Defined.

(** ** The filters attached by a step *)

Lemma existsb_map_false {A B} (f : A -> B) (p : B -> bool) (l : list A) :
  Forall (fun x => p (f x) = false) l -> existsb p (map f l) = false.
Proof.
  induction 1 as [|x xs Hx _ IH]; [reflexivity|].
  cbn [map existsb]. now rewrite Hx, IH.
Qed.

(** Substituting a label-free scope leaves no label reference behind. *)
Lemma substLabels_label_free (scope f : Expr) :
  hasLabelRef scope = false -> hasLabelRef (substLabels scope f) = false.
Proof.
  intros Hs. induction f using Expr_nested_ind; cbn [substLabels hasLabelRef];
    try reflexivity; try assumption.
  - now apply existsb_map_false.
  - now apply existsb_map_false.
  - now rewrite IHf1, IHf2.
  - now rewrite IHf1, IHf2.
Qed.

(** What the visit leaves behind: a label reference exactly when the
    filter is itself one. *)
Lemma visited_label_ref (scope f : Expr) :
  hasLabelRef scope = false ->
  hasLabelRef (if rootIsLabel f then f else substLabels scope f) = rootIsLabel f.
Proof.
  intros Hs. destruct (rootIsLabel f) eqn:Hroot.
  - destruct f; try discriminate Hroot; reflexivity.
  - now apply substLabels_label_free.
Qed.

Section FilterRewriteProofs.
Context (K : Names) (matchCtx_ : MatchClauseContext).

(** C9 fails in the code for a filter that is itself a label reference.
    The two rewriters are as C9 has them: a label attribute becomes the
    attribute of the same field name on the vertex, respectively the
    edge, expression; the vertex rewriter maps a bare label to the vertex
    expression; handed any other kind of expression (for the edge
    rewriter: anything but a label attribute) their check fails.  But
    [expandStep] attaches the very clone it has visited, and the visit
    cannot replace the object it is called on.  So when [expandStep]
    succeeds, each filter node it attaches carries the filter with every
    label reference replaced if the filter is not itself a label
    reference, and the filter unchanged if it is: a label reference
    remains in an attached filter exactly when the filter is itself a
    label or a label attribute. *)
Theorem expandStep_root_label_kept :
  (forall label field,
     vertexRewriter (ELabelAttribute label field) = Some (EAttribute EVertex field) /\
     edgeRewriter (ELabelAttribute label field) = Some (EAttribute EEdge field)) /\
  (forall name, vertexRewriter (ELabel name) = Some EVertex) /\
  (forall e,
     (expr_kind e <> ExprKind.kLabelAttribute -> expr_kind e <> ExprKind.kLabel ->
      vertexRewriter e = None) /\
     (expr_kind e <> ExprKind.kLabelAttribute -> edgeRewriter e = None)) /\
  (forall self edge dep inputVar nodeFilter pool ie plan st',
     expandStep K matchCtx_ self edge dep inputVar nodeFilter (mkState pool ie)
       = Done plan st' ->
     let n0 := length pool in
     let attached (scope f : Expr) :=
       if rootIsLabel f then f else substLabels scope f in
     (forall f, nodeFilter = Some f ->
        objPool st' !! (n0 + 3)
        = Some (mkPlanNode PNKind.kFilter (anonVar matchCtx_ (n0 + 3)) []
                  [Some (n0 + 2)] (BFilter (attached EVertex f))) /\
        hasLabelRef (attached EVertex f) = rootIsLabel f) /\
     (forall f, edge_filter edge = Some f ->
        objPool st' !! (n0 + 3 + optCount nodeFilter)
        = Some (mkPlanNode PNKind.kFilter
                  (anonVar matchCtx_ (n0 + 3 + optCount nodeFilter)) []
                  [Some (n0 + 2 + optCount nodeFilter)]
                  (BFilter (attached EEdge f))) /\
        hasLabelRef (attached EEdge f) = rootIsLabel f)).
Proof.
  split; [intros; split; reflexivity|].
  split; [reflexivity|].
  split.
  { intros e. split.
    - intros H1 H2. destruct e; try reflexivity; contradiction.
    - intros H1. destruct e; try reflexivity; contradiction. }
  intros self edge dep inputVar nodeFilter pool ie plan st' Hrun n0 attached.
  apply expandStep_Done_inv in Hrun as (_ & -> & ->). cbn [objPool]. fold n0.
  split.
  - intros f ->. split.
    + unfold stepNodes, n0. rewrite pool_lookup_new.
      destruct (edge_filter edge); reflexivity.
    + now apply visited_label_ref.
  - intros f Hf. split.
    + unfold stepNodes, n0. rewrite <- !Nat.add_assoc, pool_lookup_new, Hf.
      destruct nodeFilter; reflexivity.
    + now apply visited_label_ref.
Qed.

End FilterRewriteProofs.

Lemma expandStep_root_label_kept_witness :
  exists plan st',
    expandStep Sample.names Sample.ctx Sample.forward Sample.oneToThree None
      "__start" (node_filter Sample.flagged) Sample.start
    = Done plan st' /\
    objPool st' !! 3
    = Some (mkPlanNode PNKind.kFilter "__var_3" [] [Some 2]
              (BFilter (ELabelAttribute "v" "flag"))) /\
    hasLabelRef (ELabelAttribute "v" "flag") = true /\
    vertexRewriter (ELabelAttribute "v" "flag") = Some (EAttribute EVertex "flag") /\
    objPool st' !! 4
    = Some (mkPlanNode PNKind.kFilter "__var_4" [] [Some 3]
              (BFilter (ERelational kRelGT (EAttribute EEdge "since")
                                           (EConstant (VInt 2000))))).
Proof.
  destruct (expandStep Sample.names Sample.ctx Sample.forward Sample.oneToThree
              None "__start" (node_filter Sample.flagged) Sample.start)
    as [plan st'|f] eqn:Hrun.
  - destruct (proj2 (proj2 (proj2
                (expandStep_root_label_kept Sample.names Sample.ctx)))
                Sample.forward Sample.oneToThree None "__start"
                (node_filter Sample.flagged) [] (Some (EVariable "vid"))
                plan st' Hrun) as (Hv & He).
    exists plan, st'. split; [reflexivity|]. split.
    + exact (proj1 (Hv _ eq_refl)).
    + split; [exact (proj2 (Hv _ eq_refl))|]. split.
      * exact (proj1 (proj1 (expandStep_root_label_kept Sample.names Sample.ctx)
                        "v" "flag")).
      * exact (proj1 (He _ eq_refl)).
  - vm_compute in Hrun. discriminate Hrun.
Defined.

(** ** The expansion driver *)

Section DriverClaims.
Context (K : Names) (matchCtx_ : MatchClauseContext).

(** [expandSteps] is its first stage followed by the loop, written with
    the number of iterations made explicit. *)
Lemma expandSteps_unfold self node edge plan st :
  expandSteps K matchCtx_ self node edge plan st
  = match expandFirst K matchCtx_ self node edge plan st with
    | Done first st1 =>
        match iterM (Z.to_nat (edgeMaxHop edge - fst first))
                    (expandLoopBody K matchCtx_ self edge)
                    (root (snd first), snd first) st1 with
        | Done last st2 => Done (mkSubPlan (root (snd last)) (tail plan)) st2
        | Failed f => Failed f
        end
    | Failed f => Failed f
    end.
Proof.
  unfold expandSteps, bind.
  destruct (expandFirst _ _ _ _ _ _ st) as [first st1|]; [|reflexivity].
  now rewrite forLoop_iterM.
Qed.

(** C5. With [startIndex] being 0 when [minHop = 0] and 1 otherwise,
    [expandSteps] is a total function that runs the loop body exactly
    [maxHop - startIndex] times (no time when that number is negative)
    after its first stage and then returns.  When the first stage
    succeeds and the edge filter passes the rewriter's check, every one
    of these iterations runs to completion, and together they add exactly
    that many neighbor fetches, joins and unions to the arena. *)
Theorem expandSteps_iterations (self : Expand) (node : NodeInfo) (edge : EdgeInfo)
    (plan : SubPlan) (st : PlanState) :
  let startIndex := if (edgeMinHop edge =? 0)%Z then 0%Z else 1%Z in
  let n := Z.to_nat (edgeMaxHop edge - startIndex) in
  Z.of_nat n = Z.max 0 (edgeMaxHop edge - startIndex) /\
  ((startIndex <= edgeMaxHop edge)%Z ->
   Z.of_nat n = (edgeMaxHop edge - startIndex)%Z) /\
  expandSteps K matchCtx_ self node edge plan st
  = (first <- expandFirst K matchCtx_ self node edge plan ;;
     last <- iterM n (expandLoopBody K matchCtx_ self edge)
                   (root (snd first), snd first) ;;
     ret (mkSubPlan (root (snd last)) (tail plan))) st /\
  (forall first st1,
     expandFirst K matchCtx_ self node edge plan st = Done first st1 ->
     edgeFilterOk edge = true ->
     exists last st2 news,
       iterM n (expandLoopBody K matchCtx_ self edge)
             (root (snd first), snd first) st1 = Done last st2 /\
       expandSteps K matchCtx_ self node edge plan st
         = Done (mkSubPlan (root (snd last)) (tail plan)) st2 /\
       objPool st2 = objPool st1 ++ news /\
       countKind PNKind.kGetNeighbors news = n /\
       countKind PNKind.kDataJoin news = n /\
       countKind PNKind.kUnion news = n).
Proof.
  intros startIndex n.
  split; [unfold n; lia|]. split; [unfold n; lia|]. split.
  - rewrite expandSteps_unfold. unfold bind.
    destruct (expandFirst _ _ _ _ _ _ st) as [first st1|] eqn:Hfirst; [|reflexivity].
    now rewrite (expandFirst_startIndex K matchCtx_ _ _ _ _ _ _ _ Hfirst).
  - intros first st1 Hfirst Hok. apply edgeFilterOk_accepted in Hok.
    rewrite expandSteps_unfold, Hfirst.
    rewrite (expandFirst_startIndex K matchCtx_ _ _ _ _ _ _ _ Hfirst).
    fold startIndex. fold n.
    destruct (expandFirst_ready K matchCtx_ _ _ _ _ _ _ _ Hfirst)
      as [[Hmin Hmax]|Hready].
    + assert (Hn : n = 0%nat).
      { unfold n, startIndex. rewrite Hmin. cbn [Z.eqb]. lia. }
      rewrite Hn. exists (root (snd first), snd first), st1, [].
      cbn [iterM]. unfold ret. rewrite app_nil_r. repeat split; reflexivity.
    + destruct (iterM_ready K matchCtx_ self edge n _ _ Hok Hready)
        as (last & st2 & news & Hiter & Hpool & _ & Hg & Hj & Hu).
      exists last, st2, news. rewrite Hiter. repeat split; assumption.
Qed.

End DriverClaims.

Lemma expandSteps_iterations_witness :
  exists plan' st',
    expandSteps Sample.names Sample.ctx Sample.forward Sample.anyNode
      Sample.oneToThree emptySubPlan Sample.start = Done plan' st' /\
    countKind PNKind.kUnion (objPool st') = 2 /\
    Z.of_nat 2 = (3 - 1)%Z.
Proof.
  pose proof (expandSteps_iterations Sample.names Sample.ctx Sample.forward
                Sample.anyNode Sample.oneToThree emptySubPlan Sample.start)
    as (_ & Hexact & _ & Hruns).
  destruct (expandFirst Sample.names Sample.ctx Sample.forward Sample.anyNode
              Sample.oneToThree emptySubPlan Sample.start)
    as [first st1|f] eqn:Hfirst.
  - destruct (Hruns first st1 eq_refl eq_refl)
      as (last & st2 & news & _ & Hsteps & Hpool & _ & _ & Hu).
    exists (mkSubPlan (root (snd last)) None), st2.
    split; [exact Hsteps|]. split.
    + rewrite Hpool, countKind_app, Hu.
      vm_compute in Hfirst. injection Hfirst as _ <-. reflexivity.
    + apply Hexact. vm_compute. discriminate.
  - vm_compute in Hfirst. discriminate Hfirst.
Defined.

Section HopCaseClaims.
Context (K : Names) (matchCtx_ : MatchClauseContext).

Lemma expandSteps_no_iteration self node edge plan st first st1 :
  expandFirst K matchCtx_ self node edge plan st = Done first st1 ->
  (edgeMaxHop edge <= fst first)%Z ->
  expandSteps K matchCtx_ self node edge plan st
  = Done (mkSubPlan (root (snd first)) (tail plan)) st1.
Proof.
  intros Hfirst Hmax. rewrite expandSteps_unfold, Hfirst.
  replace (Z.to_nat (edgeMaxHop edge - fst first)) with 0%nat by lia.
  reflexivity.
Qed.

(** C6. When [minHop = 0], [expandSteps] starts with a fetch-vertex plan
    for the starting vertex on top of the incoming plan, and no neighbor
    fetch.  When [maxHop > 0] the first stage wraps the fetch-vertex root
    in a pass-through node, which becomes the accumulator of the loop.
    When [maxHop <= 0] nothing is wrapped and nothing else is built: the
    fetch-vertex node is the only node added and is the plan root.  A
    failing tag-schema lookup is handed to the caller. *)
Theorem expandSteps_zero_hop (self : Expand) (node : NodeInfo) (edge : EdgeInfo)
    (plan : SubPlan) (pool : list PlanNode) (ie : option Expr) :
  edgeMinHop edge = 0%Z ->
  let n0 := length pool in
  (forall props,
     getAllVertexProp matchCtx_ (space_id matchCtx_) = Some props ->
     let gv := mkPlanNode PNKind.kGetVertices (anonVar matchCtx_ n0) []
                 [root plan]
                 (BGetVertices (space_id matchCtx_) ie (inputVar_ self) props
                               (node_filter node)) in
     let pt := mkPlanNode PNKind.kPassThrough (outputVar gv) (colNames gv)
                 [Some n0] BNone in
     ((edgeMaxHop edge > 0)%Z ->
      expandFirst K matchCtx_ self node edge plan (mkState pool ie)
      = Done (0%Z, mkSubPlan (Some (n0 + 1)) (tail plan))
             (mkState (pool ++ [gv; pt]) None)) /\
     ((edgeMaxHop edge <= 0)%Z ->
      expandFirst K matchCtx_ self node edge plan (mkState pool ie)
      = Done (0%Z, mkSubPlan (Some n0) (tail plan)) (mkState (pool ++ [gv]) None) /\
      expandSteps K matchCtx_ self node edge plan (mkState pool ie)
      = Done (mkSubPlan (Some n0) (tail plan)) (mkState (pool ++ [gv]) None))) /\
  (getAllVertexProp matchCtx_ (space_id matchCtx_) = None ->
   expandSteps K matchCtx_ self node edge plan (mkState pool ie)
   = Failed (StatusError "tag schema lookup failed")).
Proof.
  intros Hmin n0. split.
  - intros props Hp gv pt.
    pose proof (expandFirst_zero K matchCtx_ self node edge plan pool ie props Hmin Hp)
      as Hfirst. cbv zeta in Hfirst.
    split; intros Hmax.
    + rewrite Hfirst. rewrite (proj2 (Z.gtb_gt _ _)) by lia. reflexivity.
    + assert (Hgt : (edgeMaxHop edge >? 0)%Z = false).
      { rewrite Z.gtb_ltb. apply Z.ltb_ge. exact Hmax. }
      rewrite Hgt in Hfirst. split; [exact Hfirst|].
      rewrite (expandSteps_no_iteration _ _ _ _ _ _ _ Hfirst) by exact Hmax.
      reflexivity.
  - intros Hp. unfold expandSteps.
    erewrite bind_Failed; [reflexivity|].
    now apply expandFirst_zero_fails.
Qed.

(** C7. Without a declared range, and whenever [minHop >= 1] and
    [maxHop = 1], a successful [doExpand] adds the nodes of one step, a
    pass-through over the step's projection, and the path-length filter:
    exactly one neighbor fetch, no union and no join.  [expandSteps]
    returns the pass-through as root.  The filter compares the path
    length with the declared minimum hop, which is 1 when no range is
    declared and whenever [minHop <= maxHop].  [doExpand] succeeds here
    whenever the label visitor gets through the edge filter. *)
Theorem doExpand_single_hop (self : Expand) (node : NodeInfo) (edge : EdgeInfo)
    (plan : SubPlan) (pool : list PlanNode) (ie : option Expr) :
  range edge = None \/ ((edgeMinHop edge >= 1)%Z /\ edgeMaxHop edge = 1%Z) ->
  edgeFilterAccepted edge = true ->
  let n0 := length pool in
  let steps := stepNodes K matchCtx_ self edge n0 ie (dependency_ self)
                         (inputVar_ self) (node_filter node) in
  let sr := stepRoot edge n0 (node_filter node) in
  let proj := mkPlanNode PNKind.kProject (anonVar matchCtx_ sr) [kPathStr K]
                [Some (sr - 1)]
                (BProject [mkYieldColumn (EPathBuild [EVertex; EEdge])
                                         (Some (kPathStr K))]) in
  let pt := mkPlanNode PNKind.kPassThrough (outputVar proj) (colNames proj)
              [Some sr] BNone in
  let lengthFilter :=
    mkPlanNode PNKind.kFilter (anonVar matchCtx_ (sr + 2)) (colNames pt)
      [Some (sr + 1)]
      (BFilter (ERelational kRelGE
                  (EFunctionCall "length" [EInputProperty (kPathStr K)])
                  (EConstant (VInt (edgeMinHop edge))))) in
  (pool ++ steps) !! sr = Some proj /\
  expandSteps K matchCtx_ self node edge plan (mkState pool ie)
    = Done (mkSubPlan (Some (sr + 1)) (tail plan))
           (mkState (pool ++ steps ++ [pt]) None) /\
  doExpand K matchCtx_ self node edge plan (mkState pool ie)
    = Done (mkSubPlan (Some (sr + 2)) (tail plan))
           (mkState (pool ++ steps ++ [pt; lengthFilter]) None) /\
  countKind PNKind.kGetNeighbors (steps ++ [pt; lengthFilter]) = 1 /\
  countKind PNKind.kUnion (steps ++ [pt; lengthFilter]) = 0 /\
  countKind PNKind.kDataJoin (steps ++ [pt; lengthFilter]) = 0 /\
  (range edge = None \/ (edgeMinHop edge <= edgeMaxHop edge)%Z ->
   edgeMinHop edge = 1%Z).
Proof.
  intros Hrange Hok n0 steps sr proj pt lengthFilter.
  assert (Hmin : edgeMinHop edge <> 0%Z).
  { unfold edgeMinHop in *. destruct Hrange as [->|[H _]]; [discriminate|lia]. }
  assert (Hmax : edgeMaxHop edge = 1%Z).
  { unfold edgeMaxHop in *. destruct Hrange as [->|[_ H]]; [reflexivity|exact H]. }
  assert (Hproj : proj = stepProject K matchCtx_ edge n0 (node_filter node)).
  { unfold proj, stepProject, pathProjectNode.
    replace (sr - 1) with (n0 + 2 + optCount (node_filter node)
                           + optCount (edge_filter edge))
      by (unfold sr, stepRoot; lia).
    reflexivity. }
  assert (Hlook : (pool ++ steps) !! sr = Some proj).
  { rewrite Hproj. now apply stepNodes_root. }
  pose proof (expandFirst_hop K matchCtx_ self node edge plan pool ie Hmin Hok)
    as Hfirst. cbv zeta in Hfirst.
  fold n0 in Hfirst. fold steps in Hfirst. fold sr in Hfirst.
  rewrite <- Hproj in Hfirst. fold pt in Hfirst.
  assert (Hsteps : expandSteps K matchCtx_ self node edge plan (mkState pool ie)
                   = Done (mkSubPlan (Some (sr + 1)) (tail plan))
                          (mkState (pool ++ steps ++ [pt]) None)).
  { rewrite (expandSteps_no_iteration _ _ _ _ _ _ _ Hfirst); [reflexivity|].
    cbn [fst]. lia. }
  assert (Hlen : length (pool ++ steps) = sr + 1).
  { unfold steps, sr. rewrite length_app. apply stepRoot_next. }
  destruct (stepNodes_kinds K matchCtx_ self edge n0 ie (dependency_ self)
              (inputVar_ self) (node_filter node)) as (Hg & Hu & Hj & _).
  fold steps in Hg, Hu, Hj.
  split; [exact Hlook|]. split; [exact Hsteps|]. split.
  - unfold doExpand. erewrite bind_Done by exact Hsteps. cbn [root tail].
    rewrite app_assoc.
    erewrite filterDatasetByPathLength_run.
    2:{ apply list_lookup_middle. symmetry. exact Hlen. }
    rewrite length_app, Hlen. cbn [length].
    rewrite <- !app_assoc.
    replace (sr + 1 + 1) with (sr + 2) by lia. reflexivity.
  - rewrite !countKind_app, Hg, Hu, Hj. repeat split; try reflexivity.
    unfold edgeMinHop, edgeMaxHop in *.
    destruct Hrange as [->|[H1 H2]]; [reflexivity|].
    intros [Hn|Hle]; [now rewrite Hn|].
    destruct (range edge); [lia|reflexivity].
Qed.

End HopCaseClaims.

Lemma expandSteps_zero_hop_witness :
  (exists st', expandFirst Sample.names Sample.ctx Sample.forward Sample.anyNode
                 Sample.zeroToTwo emptySubPlan Sample.start
               = Done (0%Z, mkSubPlan (Some 1) None) st') /\
  (exists st', expandSteps Sample.names Sample.ctx Sample.forward Sample.anyNode
                 Sample.zeroOnly emptySubPlan Sample.start
               = Done (mkSubPlan (Some 0) None) st' /\ length (objPool st') = 1).
Proof.
  split.
  - eexists.
    apply (proj1 (expandSteps_zero_hop Sample.names Sample.ctx Sample.forward
                    Sample.anyNode Sample.zeroToTwo emptySubPlan []
                    (Some (EVariable "vid")) eq_refl) [] eq_refl).
    reflexivity.
  - eexists. split.
    + apply (proj1 (expandSteps_zero_hop Sample.names Sample.ctx Sample.forward
                      Sample.anyNode Sample.zeroOnly emptySubPlan []
                      (Some (EVariable "vid")) eq_refl) [] eq_refl).
      discriminate.
    + reflexivity.
Defined.

Lemma doExpand_single_hop_witness :
  exists st',
    doExpand Sample.names Sample.ctx Sample.forward Sample.anyNode Sample.bothKnows
      emptySubPlan Sample.start
    = Done (mkSubPlan (Some 5) None) st' /\
    countKind PNKind.kGetNeighbors (objPool st') = 1 /\
    countKind PNKind.kUnion (objPool st') = 0.
Proof.
  eexists. split.
  - exact (proj1 (proj2 (proj2
             (doExpand_single_hop Sample.names Sample.ctx Sample.forward
                Sample.anyNode Sample.bothKnows emptySubPlan []
                (Some (EVariable "vid")) (or_introl eq_refl) eq_refl)))).
  - split; reflexivity.
Defined.

(** * Further properties of the expansion *)

(** ** More on edge property specifications *)

Section EdgePropsExtra.
Context (K : Names) (matchCtx_ : MatchClauseContext).

Lemma flat_map_pair_perm {A B} (f g : A -> B) (l : list A) :
  flat_map (fun x => [f x; g x]) l ≡ₚ map g l ++ map f l.
Proof.
  induction l as [|x l IH]; cbn [flat_map map app]; [reflexivity|].
  rewrite IH. rewrite <- Permutation_middle. apply perm_swap.
Qed.

(** X1. Expanding reversely swaps the two one-way directions: the
    specifications for OUT under one setting of the reversely flag are
    those for IN under the opposite setting, and the other way round. *)
Theorem genEdgeProps_reverse_swaps (self other : Expand) (edge : EdgeInfo) :
  reversely_ other = negb (reversely_ self) ->
  genEdgeProps K matchCtx_ other (withDirection OUT_EDGE edge)
    = genEdgeProps K matchCtx_ self (withDirection IN_EDGE edge) /\
  genEdgeProps K matchCtx_ other (withDirection IN_EDGE edge)
    = genEdgeProps K matchCtx_ self (withDirection OUT_EDGE edge).
Proof.
  intros Hrev. rewrite !genEdgeProps_flat_map. cbn [withDirection direction edgeTypes].
  rewrite Hrev. unfold propsOfType. destruct (reversely_ self); split; reflexivity.
Qed.

(** X2. [genEdgeProps] treats the edge types one by one and in order:
    the result for a concatenation of type lists is the concatenation of
    the results, and an empty type list gives no specification. *)
Theorem genEdgeProps_app (self : Expand) (edge : EdgeInfo) (ts1 ts2 : list EdgeType) :
  genEdgeProps K matchCtx_ self (withTypes (ts1 ++ ts2) edge)
    = genEdgeProps K matchCtx_ self (withTypes ts1 edge)
      ++ genEdgeProps K matchCtx_ self (withTypes ts2 edge) /\
  genEdgeProps K matchCtx_ self (withTypes [] edge) = [].
Proof.
  rewrite !genEdgeProps_flat_map. cbn [withTypes direction edgeTypes].
  split; [apply flat_map_app|reflexivity].
Qed.

(** X3. Direction BOTH asks for exactly what OUT and IN ask for
    together: its specifications are a rearrangement of those of OUT
    followed by those of IN, whatever the reversely flag. *)
Theorem genEdgeProps_both_is_out_and_in (self : Expand) (edge : EdgeInfo) :
  genEdgeProps K matchCtx_ self (withDirection BOTH edge)
  ≡ₚ genEdgeProps K matchCtx_ self (withDirection OUT_EDGE edge)
     ++ genEdgeProps K matchCtx_ self (withDirection IN_EDGE edge).
Proof.
  rewrite !genEdgeProps_flat_map. cbn [withDirection direction edgeTypes].
  unfold propsOfType. rewrite !flat_map_singleton.
  destruct (reversely_ self).
  - rewrite flat_map_pair_perm. apply Permutation_app_comm.
  - apply flat_map_pair_perm.
Qed.

End EdgePropsExtra.

Lemma genEdgeProps_reverse_swaps_witness :
  genEdgeProps Sample.names Sample.ctx Sample.backward
    (withDirection OUT_EDGE Sample.bothKnows)
  = genEdgeProps Sample.names Sample.ctx Sample.forward
      (withDirection IN_EDGE Sample.bothKnows).
Proof.
  exact (proj1 (genEdgeProps_reverse_swaps Sample.names Sample.ctx Sample.forward
                  Sample.backward Sample.bothKnows eq_refl)).
Defined.

(** ** The whole plan of an expansion *)

Section PlanProofs.
Context (K : Names) (matchCtx_ : MatchClauseContext).

Lemma stepNodes_kind_list self edge n0 ie dep inputVar nodeFilter :
  map kind (stepNodes K matchCtx_ self edge n0 ie dep inputVar nodeFilter)
  = stepKinds nodeFilter edge.
Proof.
  unfold stepNodes, stepKinds. destruct nodeFilter, (edge_filter edge); reflexivity.
Qed.

Lemma iterationNodes_kind_list self edge n0 ie p pvar r :
  map kind (iterationNodes K matchCtx_ self edge n0 ie p pvar r)
  = iterationKinds edge.
Proof.
  unfold iterationNodes, iterationKinds.
  now rewrite map_app, stepNodes_kind_list.
Qed.

Lemma stepNodes_label_free self edge n0 ie dep inputVar nodeFilter :
  rootLabelFilter nodeFilter = false ->
  rootLabelFilter (edge_filter edge) = false ->
  Forall labelFreeNode
    (stepNodes K matchCtx_ self edge n0 ie dep inputVar nodeFilter).
Proof.
  unfold stepNodes, fetchNodes, filterNodes, pathProjectNode, labelFreeNode,
    rootLabelFilter, visited.
  intros Hn He.
  destruct nodeFilter, (edge_filter edge); cbn [app optCount];
    rewrite ?Hn, ?He;
    repeat constructor; cbn [nodeExprs body freshNode map yc_expr];
    repeat constructor; now apply substLabels_label_free.
Qed.

Lemma iterationNodes_label_free self edge n0 ie p pvar r :
  rootLabelFilter (edge_filter edge) = false ->
  Forall labelFreeNode (iterationNodes K matchCtx_ self edge n0 ie p pvar r).
Proof.
  intros He. unfold iterationNodes. apply Forall_app. split.
  - now apply stepNodes_label_free.
  - unfold collectNodes, labelFreeNode. repeat constructor.
Qed.

(** A step with an edge filter the rewriter rejects stops the iteration. *)
Lemma expandLoopBody_fails self edge p pn sp st :
  edgeFilterAccepted edge = false ->
  objPool st !! p = Some pn ->
  expandLoopBody K matchCtx_ self edge (Some p, sp) st
  = Failed (CheckFailed "unexpected expression kind in filter").
Proof.
  intros Hok Hp. unfold expandLoopBody. cbn [fst snd].
  erewrite bind_Done.
  2:{ unfold getNode. rewrite Hp. reflexivity. }
  erewrite bind_Failed by (apply expandStep_fails; exact Hok). reflexivity.
Qed.

Lemma expandFirst_hop_fails self node edge plan st :
  edgeMinHop edge <> 0%Z ->
  edgeFilterAccepted edge = false ->
  expandFirst K matchCtx_ self node edge plan st
  = Failed (CheckFailed "unexpected expression kind in filter").
Proof.
  intros Hmin Hok. unfold expandFirst. apply Z.eqb_neq in Hmin. rewrite Hmin.
  erewrite bind_Failed by (apply expandStep_fails; exact Hok). reflexivity.
Qed.

(** What [n] iterations from a ready loop state build. *)
Lemma iterM_plan self edge n : forall s st,
  edgeFilterAccepted edge = true ->
  loopReady s st ->
  exists s' st' news r rn,
    iterM n (expandLoopBody K matchCtx_ self edge) s st = Done s' st' /\
    objPool st' = objPool st ++ news /\
    (n = 0 -> s' = s /\ st' = st) /\
    (0 < n -> initialExpr_ st' = None) /\
    root (snd s') = Some r /\
    objPool st' !! r = Some rn /\
    (0 < n -> kind rn = PNKind.kUnion /\ colNames rn = [kPathStr K]) /\
    map kind news = concat (replicate n (iterationKinds edge)) /\
    (rootLabelFilter (edge_filter edge) = false -> Forall labelFreeNode news).
Proof.
  induction n as [|n IH]; intros s st Hok Hready.
  - destruct Hready as (p & pn & r & rn & Hp & Hpn & Hr & Hrn & Hk).
    exists s, st, [], r, rn. cbn [iterM]. rewrite app_nil_r.
    repeat split; auto; try lia.
  - destruct (expandLoopBody_ready K matchCtx_ self edge s st Hok Hready)
      as (s1 & news1 & u & un & Hrun & Hready1 & _ & _ & _ & Hu & Hun & Hku & Hcu).
    assert (Hnews1 : map kind news1 = iterationKinds edge /\
                     (rootLabelFilter (edge_filter edge) = false ->
                      Forall labelFreeNode news1)).
    { destruct Hready as (p & pn & r & rn & Hp & Hpn & Hr & Hrn & Hk).
      destruct s as [pt sp], st as [pool ie]. cbn [fst snd objPool] in *. subst pt.
      pose proof (expandLoopBody_run K matchCtx_ self edge p pn r rn sp pool ie
                    Hok Hpn Hr Hrn Hk) as Hrun'.
      assert (Heq : pool ++ iterationNodes K matchCtx_ self edge (length pool) ie p
                              (outputVar pn) r = pool ++ news1).
      { pose proof (eq_trans (eq_sym Hrun') Hrun) as Hboth.
        injection Hboth as _ Hpools. exact Hpools. }
      apply app_inv_head in Heq. subst news1.
      split; [apply iterationNodes_kind_list|apply iterationNodes_label_free]. }
    destruct Hnews1 as [Hkinds1 Hfree1].
    destruct (IH s1 _ Hok Hready1)
      as (s2 & st2 & news2 & r2 & rn2 & Hiter & Hpool & Hzero & Hie & Hr2 & Hrn2
          & Hunion & Hkinds2 & Hfree2).
    cbn [objPool] in Hpool.
    exists s2, st2, (news1 ++ news2), r2, rn2. cbn [iterM].
    erewrite bind_Done by exact Hrun.
    split; [exact Hiter|]. split; [now rewrite Hpool, <- app_assoc|].
    split; [lia|]. split.
    { intros _. destruct n as [|n'].
      - destruct (Hzero eq_refl) as [_ ->]. reflexivity.
      - apply Hie. lia. }
    split; [exact Hr2|]. split; [exact Hrn2|]. split.
    { intros _. destruct n as [|n'].
      - destruct (Hzero eq_refl) as [-> ->]. cbn [objPool] in Hrn2.
        rewrite Hu in Hr2. injection Hr2 as <-.
        rewrite Hun in Hrn2. injection Hrn2 as <-. now split.
      - apply Hunion. lia. }
    split.
    { rewrite map_app, Hkinds1, Hkinds2. reflexivity. }
    intros He. apply Forall_app. split; [now apply Hfree1|now apply Hfree2].
Qed.

End PlanProofs.

Section WholePlanProofs.
Context (K : Names) (matchCtx_ : MatchClauseContext).

Lemma doExpand_unfold self node edge plan st :
  doExpand K matchCtx_ self node edge plan st
  = match expandSteps K matchCtx_ self node edge plan st with
    | Done plan1 st1 =>
        filterDatasetByPathLength K matchCtx_ edge (root plan1) plan1 st1
    | Failed f => Failed f
    end.
Proof. reflexivity. Qed.

(** From a successful first stage to the finished plan. *)
Lemma doExpand_after_first self node edge plan pool ie first news1 r0 rn0 :
  expandFirst K matchCtx_ self node edge plan (mkState pool ie)
    = Done first (mkState (pool ++ news1) None) ->
  root (snd first) = Some r0 ->
  (pool ++ news1) !! r0 = Some rn0 ->
  (0 < iterations edge ->
   edgeFilterAccepted edge = true /\
   loopReady (root (snd first), snd first) (mkState (pool ++ news1) None)) ->
  exists news2 r rn,
    expandSteps K matchCtx_ self node edge plan (mkState pool ie)
      = Done (mkSubPlan (Some r) (tail plan))
             (mkState (pool ++ news1 ++ news2) None) /\
    (pool ++ news1 ++ news2) !! r = Some rn /\
    (iterations edge = 0 -> news2 = [] /\ r = r0 /\ rn = rn0) /\
    (0 < iterations edge -> kind rn = PNKind.kUnion /\ colNames rn = [kPathStr K]) /\
    map kind news2 = concat (replicate (iterations edge) (iterationKinds edge)) /\
    (rootLabelFilter (edge_filter edge) = false -> Forall labelFreeNode news2) /\
    doExpand K matchCtx_ self node edge plan (mkState pool ie)
      = Done (mkSubPlan (Some (length (pool ++ news1 ++ news2))) (tail plan))
          (mkState
             (pool ++ news1 ++ news2 ++
              [mkPlanNode PNKind.kFilter
                 (anonVar matchCtx_ (length (pool ++ news1 ++ news2)))
                 (colNames rn) [Some r]
                 (BFilter (pathLengthExpr K (edgeMinHop edge)))])
             None).
Proof.
  intros Hfirst Hr0 Hrn0 Hloop.
  pose proof (expandFirst_startIndex K matchCtx_ _ _ _ _ _ _ _ Hfirst) as Hstart.
  assert (Hn : Z.to_nat (edgeMaxHop edge - fst first) = iterations edge).
  { unfold iterations, hopStart. now rewrite Hstart. }
  assert (Hiter : exists s' news2 r rn,
             iterM (iterations edge) (expandLoopBody K matchCtx_ self edge)
                   (root (snd first), snd first) (mkState (pool ++ news1) None)
               = Done s' (mkState (pool ++ news1 ++ news2) None) /\
             root (snd s') = Some r /\
             (pool ++ news1 ++ news2) !! r = Some rn /\
             (iterations edge = 0 -> news2 = [] /\ r = r0 /\ rn = rn0) /\
             (0 < iterations edge ->
              kind rn = PNKind.kUnion /\ colNames rn = [kPathStr K]) /\
             map kind news2
               = concat (replicate (iterations edge) (iterationKinds edge)) /\
             (rootLabelFilter (edge_filter edge) = false ->
              Forall labelFreeNode news2)).
  { destruct (iterations edge) as [|n] eqn:Hcount.
    - exists (root (snd first), snd first), [], r0, rn0.
      cbn [iterM]. unfold ret. rewrite !app_nil_r. cbn [snd].
      repeat split; auto; try lia.
    - destruct Hloop as [Hok Hready]; [lia|].
      destruct (iterM_plan K matchCtx_ self edge (S n) _ _ Hok Hready)
        as (s' & st' & news2 & r & rn & Hrun & Hpool & _ & Hie & Hr & Hrn
            & Hunion & Hkinds & Hfree).
      destruct st' as [pool' ie']. cbn [objPool initialExpr_] in *.
      rewrite (Hie ltac:(lia)) in Hrun. subst pool'.
      rewrite <- app_assoc in Hrun, Hrn.
      exists s', news2, r, rn. repeat split; auto; try lia;
        try (apply Hunion; lia). }
  destruct Hiter as (s' & news2 & r & rn & Hrun & Hr & Hrn & Hzero & Hunion
                     & Hkinds & Hfree).
  assert (Hsteps : expandSteps K matchCtx_ self node edge plan (mkState pool ie)
                   = Done (mkSubPlan (Some r) (tail plan))
                          (mkState (pool ++ news1 ++ news2) None)).
  { rewrite expandSteps_unfold, Hfirst, Hn, Hrun, Hr. reflexivity. }
  exists news2, r, rn.
  split; [exact Hsteps|]. split; [exact Hrn|]. split; [exact Hzero|].
  split; [exact Hunion|]. split; [exact Hkinds|]. split; [exact Hfree|].
  rewrite doExpand_unfold, Hsteps. cbn [root].
  rewrite (filterDatasetByPathLength_run K matchCtx_ edge r rn _ _ None Hrn).
  cbn [tail]. rewrite <- !app_assoc. reflexivity.
Qed.

End WholePlanProofs.

Section DoExpandCases.
Context (K : Names) (matchCtx_ : MatchClauseContext).

(** Everything [doExpand] builds on the inputs it accepts. *)
Lemma doExpand_built self node edge plan pool ie :
  doExpandOk matchCtx_ edge = true ->
  exists news r rn,
    expandSteps K matchCtx_ self node edge plan (mkState pool ie)
      = Done (mkSubPlan (Some r) (tail plan)) (mkState (pool ++ news) None) /\
    (pool ++ news) !! r = Some rn /\
    (expandsEdge edge = true -> colNames rn = [kPathStr K]) /\
    map kind news
      = firstKinds node edge
        ++ concat (replicate (iterations edge) (iterationKinds edge)) /\
    (edgeMinHop edge <> 0%Z ->
     rootLabelFilter (node_filter node) = false ->
     rootLabelFilter (edge_filter edge) = false ->
     Forall labelFreeNode news) /\
    doExpand K matchCtx_ self node edge plan (mkState pool ie)
      = Done (mkSubPlan (Some (length (pool ++ news))) (tail plan))
          (mkState
             (pool ++ news ++
              [mkPlanNode PNKind.kFilter (anonVar matchCtx_ (length (pool ++ news)))
                 (colNames rn) [Some r]
                 (BFilter (pathLengthExpr K (edgeMinHop edge)))])
             None).
Proof.
  intros Hokall. unfold doExpandOk, expandsEdge in Hokall.
  destruct (Z.eq_dec (edgeMinHop edge) 0%Z) as [Hmin|Hmin].
  - (* zero-hop branch *)
    rewrite Hmin in Hokall. cbn [Z.eqb negb orb] in Hokall.
    destruct (getAllVertexProp matchCtx_ (space_id matchCtx_)) as [props|] eqn:Hp;
      [|discriminate].
    cbn [andb] in Hokall.
    pose proof (expandFirst_zero K matchCtx_ self node edge plan pool ie props Hmin Hp)
      as Hfirst. cbv zeta in Hfirst.
    set (gv := fetchVertexNode matchCtx_ self node (length pool) ie plan props) in *.
    destruct (edgeMaxHop edge >? 0)%Z eqn:Hmax.
    + rewrite orb_false_r in Hokall.
      assert (Hr0 : (pool ++ [gv; passThroughNode (length pool) gv])
                      !! (length pool + 1)
                    = Some (passThroughNode (length pool) gv)).
      { now rewrite pool_lookup_new. }
      destruct (doExpand_after_first K matchCtx_ self node edge plan pool ie _ _ _ _
                  Hfirst eq_refl Hr0) as (news2 & r & rn & Hsteps & Hrn & Hzero
                                          & Hunion & Hkinds & Hfree & Hdo).
      { intros _. split; [exact Hokall|].
        destruct (expandFirst_ready K matchCtx_ _ _ _ _ _ _ _ Hfirst)
          as [[_ Hle]|Hready]; [|exact Hready].
        rewrite Z.gtb_ltb in Hmax. apply Z.ltb_lt in Hmax. lia. }
      assert (Hpos : 0 < iterations edge).
      { unfold iterations, hopStart. rewrite Hmin. cbn [Z.eqb].
        rewrite Z.gtb_ltb in Hmax. apply Z.ltb_lt in Hmax. lia. }
      exists ([gv; passThroughNode (length pool) gv] ++ news2), r, rn.
      split; [exact Hsteps|]. split; [exact Hrn|].
      split; [intros _; now apply Hunion|]. split.
      { rewrite map_app, Hkinds. unfold firstKinds. rewrite Hmin, Hmax. reflexivity. }
      split; [intros Hne; contradiction|].
      rewrite <- app_assoc. exact Hdo.
    + assert (Hr0 : (pool ++ [gv]) !! length pool = Some gv).
      { now apply list_lookup_middle. }
      assert (Hnone : iterations edge = 0).
      { unfold iterations, hopStart. rewrite Hmin. cbn [Z.eqb].
        rewrite Z.gtb_ltb in Hmax. apply Z.ltb_ge in Hmax. lia. }
      destruct (doExpand_after_first K matchCtx_ self node edge plan pool ie _ _ _ _
                  Hfirst eq_refl Hr0) as (news2 & r & rn & Hsteps & Hrn & Hzero
                                          & Hunion & Hkinds & Hfree & Hdo).
      { intros Hpos. lia. }
      exists ([gv] ++ news2), r, rn.
      split; [exact Hsteps|]. split; [exact Hrn|].
      split.
      { intros He. unfold expandsEdge in He. rewrite Hmin, Hmax in He. discriminate. }
      split.
      { rewrite map_app, Hkinds. unfold firstKinds. rewrite Hmin, Hmax. reflexivity. }
      split; [intros Hne; contradiction|].
      rewrite <- app_assoc. exact Hdo.
  - (* at least one hop *)
    assert (Hmin' : (edgeMinHop edge =? 0)%Z = false) by now apply Z.eqb_neq.
    rewrite Hmin' in Hokall. cbn [negb orb andb] in Hokall.
    rewrite orb_false_r in Hokall.
    pose proof (expandFirst_hop K matchCtx_ self node edge plan pool ie Hmin Hokall)
      as Hfirst. cbv zeta in Hfirst.
    set (steps := stepNodes K matchCtx_ self edge (length pool) ie (dependency_ self)
                            (inputVar_ self) (node_filter node)) in *.
    set (sr := stepRoot edge (length pool) (node_filter node)) in *.
    set (pt := passThroughNode sr _) in *.
    assert (Hr0 : (pool ++ steps ++ [pt]) !! (sr + 1) = Some pt).
    { rewrite app_assoc. apply list_lookup_middle.
      unfold sr, steps. now rewrite length_app, stepRoot_next. }
    destruct (doExpand_after_first K matchCtx_ self node edge plan pool ie _ _ _ _
                Hfirst eq_refl Hr0) as (news2 & r & rn & Hsteps & Hrn & Hzero
                                        & Hunion & Hkinds & Hfree & Hdo).
    { intros _. split; [exact Hokall|].
      destruct (expandFirst_ready K matchCtx_ _ _ _ _ _ _ _ Hfirst)
        as [[Hz _]|Hready]; [contradiction|exact Hready]. }
    exists ((steps ++ [pt]) ++ news2), r, rn.
    split; [exact Hsteps|]. split; [exact Hrn|].
    split.
    { intros _. destruct (iterations edge) as [|n] eqn:Hcount.
      - destruct (Hzero eq_refl) as (_ & _ & ->). reflexivity.
      - apply Hunion. lia. }
    split.
    { rewrite !map_app, Hkinds. unfold firstKinds, steps.
      rewrite Hmin', stepNodes_kind_list. reflexivity. }
    split.
    { intros _ Hnf Hef. apply Forall_app. split; [|now apply Hfree].
      apply Forall_app. split; [now apply stepNodes_label_free|].
      repeat constructor. }
    rewrite <- (app_assoc (steps ++ [pt]) news2). exact Hdo.
Qed.

(** On every other input [doExpand] fails, and tells why. *)
Lemma doExpand_refused self node edge plan st :
  doExpandOk matchCtx_ edge = false ->
  doExpand K matchCtx_ self node edge plan st
  = Failed
      (if (edgeMinHop edge =? 0)%Z
       then match getAllVertexProp matchCtx_ (space_id matchCtx_) with
            | None => StatusError "tag schema lookup failed"
            | Some _ => CheckFailed "unexpected expression kind in filter"
            end
       else CheckFailed "unexpected expression kind in filter").
Proof.
  intros Hokall. unfold doExpandOk, expandsEdge in Hokall.
  rewrite doExpand_unfold, expandSteps_unfold.
  destruct (Z.eq_dec (edgeMinHop edge) 0%Z) as [Hmin|Hmin].
  - rewrite Hmin in *. cbn [Z.eqb negb orb] in *.
    destruct (getAllVertexProp matchCtx_ (space_id matchCtx_)) as [props|] eqn:Hp.
    + cbn [andb] in Hokall. apply orb_false_iff in Hokall as [Hok Hmax].
      apply negb_false_iff in Hmax.
      destruct st as [pool ie].
      pose proof (expandFirst_zero K matchCtx_ self node edge plan pool ie props
                    Hmin Hp) as Hfirst.
      cbv zeta in Hfirst. rewrite Hmax in Hfirst. rewrite Hfirst. cbn [fst snd root].
      assert (Hn : exists n, Z.to_nat (edgeMaxHop edge - 0) = S n).
      { rewrite Z.gtb_ltb in Hmax. apply Z.ltb_lt in Hmax.
        exists (Z.to_nat (edgeMaxHop edge - 0) - 1). lia. }
      destruct Hn as [n ->]. cbn [iterM].
      erewrite bind_Failed; [reflexivity|].
      eapply expandLoopBody_fails; [exact Hok|].
      cbn [objPool]. now rewrite pool_lookup_new.
    + now rewrite (expandFirst_zero_fails K matchCtx_ self node edge plan st Hmin Hp).
  - assert (Hmin' : (edgeMinHop edge =? 0)%Z = false) by now apply Z.eqb_neq.
    rewrite Hmin' in *. cbn [negb orb andb] in Hokall.
    rewrite orb_false_r in Hokall.
    now rewrite (expandFirst_hop_fails K matchCtx_ self node edge plan st Hmin Hokall).
Qed.

End DoExpandCases.

(** ** What a user of [doExpand] can rely on *)

Section DoExpandProperties.
Context (K : Names) (matchCtx_ : MatchClauseContext).

Lemma doExpand_Done_ok self node edge plan st plan' st' :
  doExpand K matchCtx_ self node edge plan st = Done plan' st' ->
  doExpandOk matchCtx_ edge = true.
Proof.
  intros Hrun. destruct (doExpandOk matchCtx_ edge) eqn:Hok; [reflexivity|].
  rewrite (doExpand_refused K matchCtx_ self node edge plan st Hok) in Hrun.
  discriminate.
Qed.

Lemma countKind_countIn k (ns : list PlanNode) :
  countKind k ns = countIn k (map kind ns).
Proof.
  unfold countKind, countIn.
  induction ns as [|n ns IH]; [reflexivity|].
  cbn [List.filter map]. destruct (PNKind.eqb (kind n) k); cbn [length]; now rewrite IH.
Qed.

Lemma countIn_app k (a b : list PNKind.t) :
  countIn k (a ++ b) = countIn k a + countIn k b.
Proof. unfold countIn. now rewrite List.filter_app, length_app. Qed.

Lemma countIn_repeat k (l : list PNKind.t) n :
  countIn k (concat (replicate n l)) = n * countIn k l.
Proof.
  induction n as [|n IH]; [reflexivity|].
  cbn [replicate concat]. rewrite countIn_app, IH. lia.
Qed.

(** X4. A successful [doExpand] only adds nodes at the end of the arena,
    so every node already there keeps its address and contents; it
    leaves the tail of the plan as it was, and it has consumed
    [initialExpr_]. *)
Theorem doExpand_frame (self : Expand) (node : NodeInfo) (edge : EdgeInfo)
    (plan plan' : SubPlan) (st st' : PlanState) :
  doExpand K matchCtx_ self node edge plan st = Done plan' st' ->
  (exists news, objPool st' = objPool st ++ news) /\
  (forall i n, objPool st !! i = Some n -> objPool st' !! i = Some n) /\
  tail plan' = tail plan /\
  initialExpr_ st' = None.
Proof.
  intros Hrun. pose proof (doExpand_Done_ok _ _ _ _ _ _ _ Hrun) as Hok.
  destruct st as [pool ie].
  destruct (doExpand_built K matchCtx_ self node edge plan pool ie Hok)
    as (news & r & rn & _ & _ & _ & _ & _ & Hdo).
  rewrite Hdo in Hrun. injection Hrun as <- <-. cbn [objPool tail initialExpr_].
  repeat split.
  - eexists. reflexivity.
  - intros i n Hi. now apply lookup_app_l_Some.
Qed.


Lemma doExpand_added_kinds self node edge plan st plan' st' :
  doExpand K matchCtx_ self node edge plan st = Done plan' st' ->
  map kind (drop (length (objPool st)) (objPool st')) = planKinds node edge.
Proof.
  intros Hrun. pose proof (doExpand_Done_ok _ _ _ _ _ _ _ Hrun) as Hok.
  destruct st as [pool ie].
  destruct (doExpand_built K matchCtx_ self node edge plan pool ie Hok)
    as (news & r & rn & _ & _ & _ & Hkinds & _ & Hdo).
  rewrite Hdo in Hrun. injection Hrun as <- <-. cbn [objPool].
  rewrite drop_app_length, map_app, Hkinds, <- app_assoc. reflexivity.
Qed.

(** X6. The nodes a successful [doExpand] adds have, in allocation
    order, the kinds of: the first stage (one step and a pass-through, or
    the fetch-vertex node with a pass-through when [maxHop > 0]); then,
    once per iteration, a step without vertex filter followed by join,
    projection, same-edge filter, pass-through and union; and last the
    path-length filter. *)
Theorem doExpand_plan_kinds (self : Expand) (node : NodeInfo) (edge : EdgeInfo)
    (plan plan' : SubPlan) (st st' : PlanState) :
  doExpand K matchCtx_ self node edge plan st = Done plan' st' ->
  map kind (drop (length (objPool st)) (objPool st'))
  = firstKinds node edge
      ++ concat (replicate (iterations edge)
                   (stepKinds None edge
                    ++ [PNKind.kDataJoin; PNKind.kProject; PNKind.kFilter;
                        PNKind.kPassThrough; PNKind.kUnion]))
      ++ [PNKind.kFilter].
Proof.
  intros Hrun. pose proof (doExpand_Done_ok _ _ _ _ _ _ _ Hrun) as Hok.
  destruct st as [pool ie].
  destruct (doExpand_built K matchCtx_ self node edge plan pool ie Hok)
    as (news & r & rn & _ & _ & _ & Hkinds & _ & Hdo).
  rewrite Hdo in Hrun. injection Hrun as <- <-. cbn [objPool].
  rewrite drop_app_length, map_app, Hkinds, <- app_assoc. reflexivity.
Qed.

(** X7. With at least one hop required and [1 <= maxHop], a successful
    [doExpand] adds exactly [maxHop] neighbor fetches, [maxHop - 1] joins
    and [maxHop - 1] unions, and no fetch-vertex node. *)
Theorem doExpand_hop_counts (self : Expand) (node : NodeInfo) (edge : EdgeInfo)
    (plan plan' : SubPlan) (st st' : PlanState) :
  edgeMinHop edge <> 0%Z ->
  (1 <= edgeMaxHop edge)%Z ->
  doExpand K matchCtx_ self node edge plan st = Done plan' st' ->
  let news := drop (length (objPool st)) (objPool st') in
  Z.of_nat (countKind PNKind.kGetNeighbors news) = edgeMaxHop edge /\
  Z.of_nat (countKind PNKind.kDataJoin news) = (edgeMaxHop edge - 1)%Z /\
  Z.of_nat (countKind PNKind.kUnion news) = (edgeMaxHop edge - 1)%Z /\
  countKind PNKind.kGetVertices news = 0.
Proof.
  intros Hmin Hmax Hrun news.
  pose proof (doExpand_added_kinds _ _ _ _ _ _ _ Hrun) as Hkinds.
  fold news in Hkinds. unfold planKinds, iterationKinds, collectKinds in Hkinds.
  assert (Hn : Z.of_nat (iterations edge) = (edgeMaxHop edge - 1)%Z).
  { unfold iterations, hopStart. apply Z.eqb_neq in Hmin. rewrite Hmin. lia. }
  rewrite !countKind_countIn, Hkinds, !countIn_app, !countIn_repeat.
  unfold firstKinds. apply Z.eqb_neq in Hmin. rewrite Hmin.
  rewrite !countIn_app. unfold stepKinds.
  destruct (node_filter node), (edge_filter edge); cbn; lia.
Qed.

(** X8. In the zero-hop case with [0 <= maxHop], a successful [doExpand]
    adds exactly one fetch-vertex node and [maxHop] neighbor fetches,
    [maxHop] joins and [maxHop] unions: the zero-hop branch is one more
    operand of the running union. *)
Theorem doExpand_zero_hop_counts (self : Expand) (node : NodeInfo) (edge : EdgeInfo)
    (plan plan' : SubPlan) (st st' : PlanState) :
  edgeMinHop edge = 0%Z ->
  (0 <= edgeMaxHop edge)%Z ->
  doExpand K matchCtx_ self node edge plan st = Done plan' st' ->
  let news := drop (length (objPool st)) (objPool st') in
  countKind PNKind.kGetVertices news = 1 /\
  Z.of_nat (countKind PNKind.kGetNeighbors news) = edgeMaxHop edge /\
  Z.of_nat (countKind PNKind.kDataJoin news) = edgeMaxHop edge /\
  Z.of_nat (countKind PNKind.kUnion news) = edgeMaxHop edge.
Proof.
  intros Hmin Hmax Hrun news.
  pose proof (doExpand_added_kinds _ _ _ _ _ _ _ Hrun) as Hkinds.
  fold news in Hkinds. unfold planKinds, iterationKinds, collectKinds in Hkinds.
  assert (Hn : Z.of_nat (iterations edge) = edgeMaxHop edge).
  { unfold iterations, hopStart. rewrite Hmin. cbn [Z.eqb]. lia. }
  rewrite !countKind_countIn, Hkinds, !countIn_app, !countIn_repeat.
  unfold firstKinds. rewrite Hmin. cbn [Z.eqb].
  rewrite !countIn_app. unfold stepKinds.
  destruct (edgeMaxHop edge >? 0)%Z, (edge_filter edge); cbn; lia.
Qed.

End DoExpandProperties.


Lemma doExpand_frame_witness :
  exists plan' st',
    doExpand Sample.names Sample.ctx Sample.forward Sample.adults Sample.oneToThree
      (mkSubPlan (Some 0) (Some 0))
      (mkState [mkPlanNode PNKind.kStart "__s" [] [] BNone] (Some (EVariable "vid")))
    = Done plan' st' /\
    objPool st' !! 0 = Some (mkPlanNode PNKind.kStart "__s" [] [] BNone) /\
    tail plan' = Some 0 /\ initialExpr_ st' = None.
Proof.
  destruct (doExpand Sample.names Sample.ctx Sample.forward Sample.adults
              Sample.oneToThree (mkSubPlan (Some 0) (Some 0))
              (mkState [mkPlanNode PNKind.kStart "__s" [] [] BNone]
                       (Some (EVariable "vid"))))
    as [plan' st'|f] eqn:Hrun.
  - destruct (doExpand_frame Sample.names Sample.ctx _ _ _ _ _ _ _ Hrun)
      as (_ & Hold & Htail & Hie).
    exists plan', st'. split; [reflexivity|]. split; [|split; assumption].
    apply Hold. reflexivity.
  - vm_compute in Hrun. discriminate Hrun.
Defined.


Lemma doExpand_plan_kinds_witness :
  exists plan' st',
    doExpand Sample.names Sample.ctx Sample.forward Sample.anyNode Sample.outKnows
      emptySubPlan Sample.start = Done plan' st' /\
    map kind (objPool st')
    = [PNKind.kProject; PNKind.kDedup; PNKind.kGetNeighbors; PNKind.kProject;
       PNKind.kPassThrough; PNKind.kFilter].
Proof.
  destruct (doExpand Sample.names Sample.ctx Sample.forward Sample.anyNode
              Sample.outKnows emptySubPlan Sample.start)
    as [plan' st'|f] eqn:Hrun.
  - exists plan', st'. split; [reflexivity|].
    exact (doExpand_plan_kinds Sample.names Sample.ctx _ _ _ _ _ _ _ Hrun).
  - vm_compute in Hrun. discriminate Hrun.
Defined.

Lemma doExpand_hop_counts_witness :
  exists plan' st',
    doExpand Sample.names Sample.ctx Sample.forward Sample.adults Sample.oneToThree
      emptySubPlan Sample.start = Done plan' st' /\
    Z.of_nat (countKind PNKind.kGetNeighbors (objPool st')) = 3%Z /\
    Z.of_nat (countKind PNKind.kUnion (objPool st')) = 2%Z.
Proof.
  destruct (doExpand Sample.names Sample.ctx Sample.forward Sample.adults
              Sample.oneToThree emptySubPlan Sample.start)
    as [plan' st'|f] eqn:Hrun.
  - destruct (doExpand_hop_counts Sample.names Sample.ctx Sample.forward
                Sample.adults Sample.oneToThree emptySubPlan plan' Sample.start st'
                ltac:(discriminate) ltac:(discriminate) Hrun)
      as (Hg & _ & Hu & _).
    exists plan', st'. split; [reflexivity|]. split; [exact Hg|exact Hu].
  - vm_compute in Hrun. discriminate Hrun.
Defined.

Lemma doExpand_zero_hop_counts_witness :
  exists plan' st',
    doExpand Sample.names Sample.ctx Sample.forward Sample.anyNode Sample.zeroToTwo
      emptySubPlan Sample.start = Done plan' st' /\
    countKind PNKind.kGetVertices (objPool st') = 1 /\
    Z.of_nat (countKind PNKind.kGetNeighbors (objPool st')) = 2%Z.
Proof.
  destruct (doExpand Sample.names Sample.ctx Sample.forward Sample.anyNode
              Sample.zeroToTwo emptySubPlan Sample.start)
    as [plan' st'|f] eqn:Hrun.
  - destruct (doExpand_zero_hop_counts Sample.names Sample.ctx Sample.forward
                Sample.anyNode Sample.zeroToTwo emptySubPlan plan' Sample.start st'
                eq_refl ltac:(discriminate) Hrun)
      as (Hv & Hg & _).
    exists plan', st'. split; [reflexivity|]. split; [exact Hv|exact Hg].
  - vm_compute in Hrun. discriminate Hrun.
Defined.

Section DoExpandOutput.
Context (K : Names) (matchCtx_ : MatchClauseContext).

(** X9. The root a successful [doExpand] returns is the node added last:
    a filter on [length(path) >= minHop] over the root that
    [expandSteps] returned.  Whenever a step was expanded, both that root
    and the filter have the single output column [path]. *)
Theorem doExpand_output (self : Expand) (node : NodeInfo) (edge : EdgeInfo)
    (plan plan' : SubPlan) (st st' : PlanState) :
  doExpand K matchCtx_ self node edge plan st = Done plan' st' ->
  exists f fn r rn st1,
    root plan' = Some f /\
    S f = length (objPool st') /\
    objPool st' !! f = Some fn /\
    kind fn = PNKind.kFilter /\
    body fn = BFilter
                (ERelational kRelGE
                   (EFunctionCall "length" [EInputProperty (kPathStr K)])
                   (EConstant (VInt (edgeMinHop edge)))) /\
    deps fn = [Some r] /\
    expandSteps K matchCtx_ self node edge plan st
      = Done (mkSubPlan (Some r) (tail plan)) st1 /\
    objPool st' !! r = Some rn /\
    colNames fn = colNames rn /\
    (expandsEdge edge = true -> colNames rn = [kPathStr K]).
Proof.
  intros Hrun. pose proof (doExpand_Done_ok _ _ _ _ _ _ _ _ _ Hrun) as Hok.
  destruct st as [pool ie].
  destruct (doExpand_built K matchCtx_ self node edge plan pool ie Hok)
    as (news & r & rn & Hsteps & Hrn & Hcols & _ & _ & Hdo).
  rewrite Hdo in Hrun. injection Hrun as <- <-. cbn [objPool root].
  eexists _, _, r, rn, _.
  split; [reflexivity|]. split.
  { rewrite (app_assoc pool news), (length_app (pool ++ news)). cbn [length]. lia. }
  split.
  { rewrite (app_assoc pool news). now apply list_lookup_middle. }
  split; [reflexivity|]. split; [reflexivity|]. split; [reflexivity|].
  split; [exact Hsteps|]. split.
  { rewrite (app_assoc pool news). now apply lookup_app_l_Some. }
  split; [reflexivity|exact Hcols].
Qed.

(** X10. A pattern of zero hops only ([minHop = 0] and [maxHop <= 0])
    never looks at the edge: [doExpand] gives the same result for any
    two edges with the same range, whatever their direction, types and
    filter. *)
Theorem doExpand_zero_only_ignores_edge (self : Expand) (node : NodeInfo)
    (edge edge' : EdgeInfo) (plan : SubPlan) (st : PlanState) :
  edgeMinHop edge = 0%Z ->
  (edgeMaxHop edge <= 0)%Z ->
  range edge' = range edge ->
  doExpand K matchCtx_ self node edge' plan st
  = doExpand K matchCtx_ self node edge plan st.
Proof.
  intros Hmin Hmax Hrange.
  assert (Hmin' : edgeMinHop edge' = 0%Z) by (unfold edgeMinHop in *; now rewrite Hrange).
  assert (Hmax' : edgeMaxHop edge' = edgeMaxHop edge)
    by (unfold edgeMaxHop; now rewrite Hrange).
  rewrite !doExpand_unfold, !expandSteps_unfold. destruct st as [pool ie].
  destruct (getAllVertexProp matchCtx_ (space_id matchCtx_)) as [props|] eqn:Hp.
  - rewrite (expandFirst_zero K matchCtx_ self node edge plan pool ie props Hmin Hp).
    rewrite (expandFirst_zero K matchCtx_ self node edge' plan pool ie props Hmin' Hp).
    rewrite Hmax'.
    assert (Hgt : (edgeMaxHop edge >? 0)%Z = false).
    { rewrite Z.gtb_ltb. now apply Z.ltb_ge. }
    rewrite Hgt. cbn [fst snd].
    replace (Z.to_nat (edgeMaxHop edge - 0)) with 0 by lia. cbn [iterM].
    unfold ret, filterDatasetByPathLength. now rewrite Hmin, Hmin'.
  - rewrite (expandFirst_zero_fails K matchCtx_ self node edge plan _ Hmin Hp).
    now rewrite (expandFirst_zero_fails K matchCtx_ self node edge' plan _ Hmin' Hp).
Qed.

(** X11. [expandStep] hands [initialExpr_] to the frontier extraction
    and leaves it empty: of two successive steps only the first extracts
    from the initial expression, the second from nothing but its input
    variable. *)
Theorem expandStep_consumes_initialExpr (self : Expand) (edge : EdgeInfo)
    (dep1 dep2 : PlanNodePtr) (var1 var2 : string) (nf1 nf2 : option Expr)
    (st st1 st2 : PlanState) (p1 p2 : SubPlan) :
  expandStep K matchCtx_ self edge dep1 var1 nf1 st = Done p1 st1 ->
  expandStep K matchCtx_ self edge dep2 var2 nf2 st1 = Done p2 st2 ->
  initialExpr_ st1 = None /\
  objPool st2 !! length (objPool st)
  = Some (mkPlanNode PNKind.kProject (anonVar matchCtx_ (length (objPool st))) []
            [dep1] (BExtractVid (initialExpr_ st) var1)) /\
  objPool st2 !! length (objPool st1)
  = Some (mkPlanNode PNKind.kProject (anonVar matchCtx_ (length (objPool st1))) []
            [dep2] (BExtractVid None var2)).
Proof.
  intros H1 H2. destruct st as [pool ie].
  apply expandStep_Done_inv in H1 as (_ & _ & ->).
  apply expandStep_Done_inv in H2 as (_ & _ & ->).
  cbn [objPool initialExpr_]. split; [reflexivity|]. split.
  - rewrite <- app_assoc. now apply list_lookup_middle.
  - now apply list_lookup_middle.
Qed.

(** X12. One iteration of the loop, from an accumulator [p] and a
    running root [r] that is a union or a pass-through: the new step
    extracts its frontier from [p], reading [p]'s output variable; the
    join takes [p] on the left and the step's projection on the right;
    the union takes the new accumulator first and [r] second.  The
    iteration returns the new accumulator and the union as running root.
    When [r] is of any other kind the iteration stops on the failed
    check instead. *)
Theorem expandLoopBody_wiring (self : Expand) (edge : EdgeInfo) (p r : NodeId)
    (pn rn : PlanNode) (sp : SubPlan) (pool : list PlanNode) (ie : option Expr) :
  edgeFilterOk edge = true ->
  pool !! p = Some pn ->
  root sp = Some r ->
  pool !! r = Some rn ->
  let n0 := length pool in
  let proj := n0 + 3 + optCount (edge_filter edge) in
  (isUnionOrPassThrough rn = true ->
   exists st' extraction projection join acc union,
     expandLoopBody K matchCtx_ self edge (Some p, sp) (mkState pool ie)
       = Done (Some (proj + 4), mkSubPlan (Some (proj + 5)) (Some (proj + 1))) st' /\
     objPool st' !! n0 = Some extraction /\
     deps extraction = [Some p] /\
     body extraction = BExtractVid ie (outputVar pn) /\
     objPool st' !! proj = Some projection /\
     kind projection = PNKind.kProject /\
     objPool st' !! (proj + 1) = Some join /\
     kind join = PNKind.kDataJoin /\
     deps join = [Some p; Some proj] /\
     objPool st' !! (proj + 4) = Some acc /\
     kind acc = PNKind.kPassThrough /\
     objPool st' !! (proj + 5) = Some union /\
     kind union = PNKind.kUnion /\
     deps union = [Some (proj + 4); Some r]) /\
  (isUnionOrPassThrough rn = false ->
   expandLoopBody K matchCtx_ self edge (Some p, sp) (mkState pool ie)
   = Failed (CheckFailed "rNode is a union or a pass-through")).
Proof.
  intros Hok Hp Hroot Hr n0 proj. subst n0. apply edgeFilterOk_accepted in Hok.
  split; intros Hk.
  - rewrite (expandLoopBody_run K matchCtx_ self edge p pn r rn sp pool ie
               Hok Hp Hroot Hr Hk).
    assert (Hproj : stepRoot edge (length pool) None = proj).
    { unfold stepRoot, proj. cbn [optCount]. lia. }
    rewrite Hproj.
    replace (proj + 1 + 3) with (proj + 4) by lia.
    replace (proj + 1 + 4) with (proj + 5) by lia.
    eexists _, _, _, _, _, _. split; [reflexivity|]. cbn [objPool].
    unfold iterationNodes. rewrite Hproj.
    set (steps := stepNodes K matchCtx_ self edge (length pool) ie (Some p)
                            (outputVar pn) None).
    set (collected := collectNodes K matchCtx_ (proj + 1) (Some p) (Some proj)
                                   (Some r)).
    assert (Hlen : length (pool ++ steps) = proj + 1).
    { unfold steps. rewrite length_app, stepRoot_next. now rewrite Hproj. }
    assert (Hnew : forall k, (pool ++ steps ++ collected) !! (proj + 1 + k)
                             = collected !! k).
    { intros k. rewrite app_assoc, <- Hlen. apply pool_lookup_new. }
    split.
    { rewrite lookup_app_r by lia. rewrite Nat.sub_diag. reflexivity. }
    split; [reflexivity|]. split; [reflexivity|]. split.
    { rewrite app_assoc. apply lookup_app_l_Some. rewrite <- Hproj.
      unfold steps. now apply stepNodes_root. }
    split; [reflexivity|]. split.
    { rewrite <- (Nat.add_0_r (proj + 1)), Hnew. reflexivity. }
    split; [reflexivity|]. split; [reflexivity|]. split.
    { replace (proj + 4) with (proj + 1 + 3) by lia. rewrite Hnew. reflexivity. }
    split; [reflexivity|]. split.
    { replace (proj + 5) with (proj + 1 + 4) by lia. rewrite Hnew. reflexivity. }
    split; [reflexivity|].
    cbn [deps]. f_equal. f_equal. lia.
  - unfold expandLoopBody. cbn [fst snd].
    erewrite bind_Done.
    2:{ unfold getNode. cbn [objPool]. rewrite Hp. reflexivity. }
    erewrite bind_Done by (apply expandStep_run; exact Hok).
    rewrite Hroot.
    erewrite bind_Done.
    2:{ unfold getNode. cbn [objPool]. rewrite (lookup_app_l_Some _ _ _ _ Hr).
        reflexivity. }
    rewrite Hk. reflexivity.
Qed.


End DoExpandOutput.

Section DoExpandFilters.
Context (K : Names) (matchCtx_ : MatchClauseContext).

(** X14. With at least one hop required and [1 <= maxHop], the filter
    nodes a successful [doExpand] adds are: the vertex filter once (the
    anchor only), the edge filter once per hop, one same-edge filter per
    join, and the path-length filter. *)
Theorem doExpand_filter_count (self : Expand) (node : NodeInfo) (edge : EdgeInfo)
    (plan plan' : SubPlan) (st st' : PlanState) :
  edgeMinHop edge <> 0%Z ->
  (1 <= edgeMaxHop edge)%Z ->
  doExpand K matchCtx_ self node edge plan st = Done plan' st' ->
  Z.of_nat (countKind PNKind.kFilter (drop (length (objPool st)) (objPool st')))
  = (Z.of_nat (optCount (node_filter node))
     + edgeMaxHop edge * Z.of_nat (optCount (edge_filter edge))
     + (edgeMaxHop edge - 1)
     + 1)%Z.
Proof.
  intros Hmin Hmax Hrun.
  pose proof (doExpand_added_kinds _ _ _ _ _ _ _ _ _ Hrun) as Hkinds.
  unfold planKinds, iterationKinds, collectKinds in Hkinds.
  assert (Hn : Z.of_nat (iterations edge) = (edgeMaxHop edge - 1)%Z).
  { unfold iterations, hopStart. apply Z.eqb_neq in Hmin. rewrite Hmin. lia. }
  rewrite countKind_countIn, Hkinds, !countIn_app, !countIn_repeat.
  unfold firstKinds. apply Z.eqb_neq in Hmin. rewrite Hmin.
  rewrite !countIn_app. unfold stepKinds.
  destruct (node_filter node), (edge_filter edge); cbn; lia.
Qed.

End DoExpandFilters.

Lemma doExpand_filter_count_witness :
  exists plan' st',
    doExpand Sample.names Sample.ctx Sample.forward Sample.adults Sample.oneToThree
      emptySubPlan Sample.start = Done plan' st' /\
    Z.of_nat (countKind PNKind.kFilter (objPool st')) = 7%Z.
Proof.
  destruct (doExpand Sample.names Sample.ctx Sample.forward Sample.adults
              Sample.oneToThree emptySubPlan Sample.start)
    as [plan' st'|f] eqn:Hrun.
  - exists plan', st'. split; [reflexivity|].
    exact (doExpand_filter_count Sample.names Sample.ctx Sample.forward
             Sample.adults Sample.oneToThree emptySubPlan plan' Sample.start st'
             ltac:(discriminate) ltac:(discriminate) Hrun).
  - vm_compute in Hrun. discriminate Hrun.
Defined.

Lemma doExpand_output_witness :
  exists plan' st' f fn,
    doExpand Sample.names Sample.ctx Sample.forward Sample.anyNode Sample.zeroToTwo
      emptySubPlan Sample.start = Done plan' st' /\
    root plan' = Some f /\ objPool st' !! f = Some fn /\
    kind fn = PNKind.kFilter /\ colNames fn = ["path"].
Proof.
  destruct (doExpand Sample.names Sample.ctx Sample.forward Sample.anyNode
              Sample.zeroToTwo emptySubPlan Sample.start)
    as [plan' st'|f] eqn:Hrun.
  - destruct (doExpand_output Sample.names Sample.ctx _ _ _ _ _ _ _ Hrun)
      as (f & fn & r & rn & st1 & Hroot & _ & Hf & Hkind & _ & _ & _ & _ & Hsame
          & Hcols).
    exists plan', st', f, fn. split; [reflexivity|].
    split; [exact Hroot|]. split; [exact Hf|]. split; [exact Hkind|].
    rewrite Hsame. apply Hcols. reflexivity.
  - vm_compute in Hrun. discriminate Hrun.
Defined.

Lemma doExpand_zero_only_ignores_edge_witness :
  doExpand Sample.names Sample.ctx Sample.forward Sample.anyNode
    (mkEdgeInfo BOTH [] (Some (mkRange 0 0)) (edge_filter Sample.wholeEdge))
    emptySubPlan Sample.start
  = doExpand Sample.names Sample.ctx Sample.forward Sample.anyNode Sample.zeroOnly
      emptySubPlan Sample.start.
Proof.
  apply (doExpand_zero_only_ignores_edge Sample.names Sample.ctx).
  - reflexivity.
  - discriminate.
  - reflexivity.
Defined.

Lemma expandStep_consumes_initialExpr_witness :
  exists p1 st1 p2 st2,
    expandStep Sample.names Sample.ctx Sample.forward Sample.outKnows None "__start"
      None Sample.start = Done p1 st1 /\
    expandStep Sample.names Sample.ctx Sample.forward Sample.outKnows (root p1)
      "__next" None st1 = Done p2 st2 /\
    objPool st2 !! 0
    = Some (mkPlanNode PNKind.kProject "__var_0" [] [None]
              (BExtractVid (Some (EVariable "vid")) "__start")) /\
    objPool st2 !! 4
    = Some (mkPlanNode PNKind.kProject "__var_4" [] [Some 3]
              (BExtractVid None "__next")).
Proof.
  destruct (expandStep Sample.names Sample.ctx Sample.forward Sample.outKnows None
              "__start" None Sample.start) as [p1 st1|f] eqn:H1.
  - destruct (expandStep Sample.names Sample.ctx Sample.forward Sample.outKnows
                (root p1) "__next" None st1) as [p2 st2|f] eqn:H2.
    + destruct (expandStep_consumes_initialExpr Sample.names Sample.ctx _ _ _ _ _ _
                  _ _ _ _ _ _ _ H1 H2) as (_ & Hfirst & Hsecond).
      exists p1, st1, p2, st2. split; [reflexivity|]. split; [exact H2|].
      vm_compute in H1. injection H1 as <- <-.
      split; [exact Hfirst|exact Hsecond].
    + vm_compute in H1. injection H1 as <- <-. vm_compute in H2. discriminate H2.
  - vm_compute in H1. discriminate H1.
Defined.

Lemma expandLoopBody_wiring_witness :
  exists st' join,
    expandLoopBody Sample.names Sample.ctx Sample.forward Sample.outKnows
      (Some 0, mkSubPlan (Some 0) None)
      (mkState [mkPlanNode PNKind.kPassThrough "__p" ["path"] [None] BNone] None)
    = Done (Some 8, mkSubPlan (Some 9) (Some 5)) st' /\
    objPool st' !! 5 = Some join /\
    deps join = [Some 0; Some 4].
Proof.
  destruct (proj1 (expandLoopBody_wiring Sample.names Sample.ctx Sample.forward
                     Sample.outKnows 0 0
                     (mkPlanNode PNKind.kPassThrough "__p" ["path"] [None] BNone)
                     (mkPlanNode PNKind.kPassThrough "__p" ["path"] [None] BNone)
                     (mkSubPlan (Some 0) None)
                     [mkPlanNode PNKind.kPassThrough "__p" ["path"] [None] BNone]
                     None eq_refl eq_refl eq_refl eq_refl) eq_refl)
    as (st' & extraction & projection & join & acc & union & Hrun & _ & _ & _ & _
        & _ & Hjoin & _ & Hdeps & _).
  exists st', join. split; [exact Hrun|]. split; [exact Hjoin|exact Hdeps].
Defined.

